(** * User accounts of the e-commerce backend: [user_database.py]

    A shallow embedding of [src/backend/src/db/user_database.py]:
    - the four compiled validation patterns and the fragment of Python's
      [re] engine they use (module [Re]);
    - the [User] record, its validating constructor and the password
      protocol;
    - the [UserDatabase] store: a Python [dict] kept in insertion order,
      synchronised with one file of a file system.

    Python [str] values are modelled as Rocq strings, one [ascii] per code
    point (the code points below 256). The libraries the module imports
    ([jsonpickle], [hmac], [hashlib], [bcrypt]) are parameters of the
    model; the random salt and the clock are arguments. Opening, reading
    and writing a file always succeed. *)

From Stdlib Require Import Ascii String ZArith Bool List Lia.
From Stdlib.Strings Require Import Byte.
From Stdlib Require Import DecimalString DecimalZ.
From stdpp Require Import gmap strings list fin_maps finite.
Import ListNotations.

Local Open Scope string_scope.

(** ** Strings *)

(** Every character of [s] satisfies [f]. *)
Fixpoint str_all (f : ascii -> bool) (s : string) : bool :=
  match s with
  | EmptyString => true
  | String c s' => f c && str_all f s'
  end.

(** Some character of [s] satisfies [f]. *)
Fixpoint str_any (f : ascii -> bool) (s : string) : bool :=
  match s with
  | EmptyString => false
  | String c s' => f c || str_any f s'
  end.

(** The line feed, ["\n"] in the source language. *)
Definition LF : ascii := ascii_of_nat 10.

Definition is_LF (c : ascii) : bool := Ascii.eqb c LF.

(** The part of [s] before its first line feed. *)
Fixpoint first_line (s : string) : string :=
  match s with
  | EmptyString => EmptyString
  | String c s' => if is_LF c then EmptyString else String c (first_line s')
  end.

(** ** The regular expressions of the module *)

Module Re.

(** An item between brackets: a range [a-z], one character, or [\w]. *)
Inductive item :=
| Range (lo hi : ascii)
| Lit (c : ascii)
| Word.

(** What consumes one character: [.], an escaped or plain character, or a
  bracket expression. *)
Inductive cset :=
| Any
| Chr (c : ascii)
| Class (items : list item).

(** The constructs the four patterns are written with: [^], [$], one
  character, a repeated character ([{m}], [{m,}], [+], [*]), a lookahead
  [(?=...)] and concatenation. *)
Inductive regex :=
| Bol
| Eol
| One (cs : cset)
| Rep (cs : cset) (lo : nat) (hi : option nat)
| Look (r : regex)
| Seq (r1 r2 : regex).

Definition code (c : ascii) : N := N_of_ascii c.

Definition in_range (lo hi c : ascii) : bool :=
((code lo <=? code c) && (code c <=? code hi))%N.

(** [\w] on a [str] pattern: the alphanumeric code points and the
  underscore. Below 256 these are the ASCII letters and digits and the
  Latin-1 letters, superscript digits and fractions. *)
Definition is_word (c : ascii) : bool :=
let n := code c in
in_range "a" "z" c || in_range "A" "Z" c || in_range "0" "9" c
|| Ascii.eqb c "_"
|| (n =? 170)%N || (n =? 178)%N || (n =? 179)%N || (n =? 181)%N
|| (n =? 185)%N || (n =? 186)%N
|| ((188 <=? n) && (n <=? 190))%N
|| ((192 <=? n) && (n <=? 214))%N
|| ((216 <=? n) && (n <=? 246))%N
|| ((248 <=? n) && (n <=? 255))%N.

Definition item_mem (i : item) (c : ascii) : bool :=
match i with
| Range lo hi => in_range lo hi c
| Lit x => Ascii.eqb c x
| Word => is_word c
end.

(** Without the DOTALL flag [.] matches anything but a line feed. *)
Definition mem (cs : cset) (c : ascii) : bool :=
match cs with
| Any => negb (is_LF c)
| Chr x => Ascii.eqb c x
| Class items => existsb (fun i => item_mem i c) items
end.

(** [$] without the MULTILINE flag: the end of the string, or just before
  a line feed that ends the string. *)
Definition at_end (s : string) : bool :=
match s with
| EmptyString => true
| String c EmptyString => is_LF c
| _ => false
end.

Definition more (hi : option nat) : bool :=
match hi with
| Some 0 => false
| _ => true
end.

Definition less (hi : option nat) : option nat :=
match hi with
| Some h => Some (pred h)
| None => None
end.

(** A backtracking matcher in continuation-passing style. [start] tells
  whether the position is the beginning of the string, [s] is what is
  left of the string and [k] matches what follows in the pattern. *)
Section Matcher.
Variable k : bool -> string -> bool.

(** Greedy repetition: one more character if possible, else stop here. *)
Fixpoint rep (cs : cset) (lo : nat) (hi : option nat)
    (start : bool) (s : string) : bool :=
  let stop := match lo with 0 => k start s | S _ => false end in
  match s with
  | EmptyString => stop
  | String c s' =>
      if mem cs c && more hi
      then rep cs (pred lo) (less hi) false s' || stop
      else stop
  end.
End Matcher.

Fixpoint run (r : regex) (start : bool) (s : string)
  (k : bool -> string -> bool) : bool :=
match r with
| Bol => start && k start s
| Eol => at_end s && k start s
| One cs =>
    match s with
    | EmptyString => false
    | String c s' => mem cs c && k false s'
    end
| Rep cs lo hi => rep k cs lo hi start s
| Look r' => run r' start s (fun _ _ => true) && k start s
| Seq r1 r2 => run r1 start s (fun start' s' => run r2 start' s' k)
end.

(** [pattern.match(s)]: the pattern matches at the beginning of [s]; what
  follows the match is free. The result is the truth value of the match
  object. *)
Definition re_match (r : regex) (s : string) : bool :=
run r true s (fun _ _ => true).

Fixpoint seq (rs : list regex) : regex :=
match rs with
| [] => Rep Any 0 (Some 0)
| [r] => r
| r :: rs' => Seq r (seq rs')
end.

Definition d09 : cset := Class [Range "0" "9"].
Definition azAZ : cset := Class [Range "a" "z"; Range "A" "Z"].
Definition word_dot : cset := Class [Word; Lit "."].

(** [{n}], [{n,}], [*] and [+]. *)
Definition exactly (n : nat) (cs : cset) : regex := Rep cs n (Some n).
Definition at_least (n : nat) (cs : cset) : regex := Rep cs n None.
Definition star (cs : cset) : regex := Rep cs 0 None.
Definition plus (cs : cset) : regex := Rep cs 1 None.

(** A sequence of one-character tests followed by [k]: what a pattern
  without repetition of variable length comes to. *)
Fixpoint eat (t : list (ascii -> bool)) (k : string -> bool) (s : string)
  : bool :=
match t with
| [] => k s
| f :: t' =>
    match s with
    | EmptyString => false
    | String c s' => f c && eat t' k s'
    end
end.

End Re.

Import Re.

(** [^[0-9]{3}\.[0-9]{3}\.[0-9]{3}\-[0-9]{2}$] *)
Definition cpf_pattern : regex :=
  seq [Bol; exactly 3 d09; One (Chr "."); exactly 3 d09; One (Chr ".");
       exactly 3 d09; One (Chr "-"); exactly 2 d09; Eol].

(** [^[0-9]{5}\-[0-9]{3}$] *)
Definition cep_pattern : regex :=
  seq [Bol; exactly 5 d09; One (Chr "-"); exactly 3 d09; Eol].

(** [^[\w\.]+@[\w\.]+$] *)
Definition email_pattern : regex :=
  seq [Bol; plus word_dot; One (Chr "@"); plus word_dot; Eol].

(** Three lookaheads at the beginning of the string, [(?=L1)(?=L2)(?=L3)]
    with L1 = [.{8,}], L2 = [.*[0-9].*] and L3 = [.*[a-zA-Z].*]. *)
Definition senha_pattern : regex :=
  seq [Look (at_least 8 Any);
       Look (seq [star Any; One d09; star Any]);
       Look (seq [star Any; One azAZ; star Any])].

(** ** Bytes and the external libraries *)

Abbreviation bytes := (list Byte.byte).

#[local] Instance byte_eq_dec : EqDecision Byte.byte := Byte.byte_eq_dec.

(** [c.encode()] for one code point below 256: UTF-8, one byte below 128
    and two bytes from 128 on. *)
Definition utf8_char (c : ascii) : bytes :=
  let n := N_of_ascii c in
  if (n <? 128)%N then [byte_of_ascii c]
  else [byte_of_ascii (ascii_of_N (192 + n / 64));
        byte_of_ascii (ascii_of_N (128 + n mod 64))].

(** [s.encode()] *)
Fixpoint str_encode (s : string) : bytes :=
  match s with
  | EmptyString => []
  | String c s' => utf8_char c ++ str_encode s'
  end.

(** What the module calls in [hmac], [hashlib], [bcrypt] and the
    builtins. These libraries are not part of the repository: the model is
    parametric in them. *)
Class Externals := {
  (** [hmac.new(key, msg, hashlib.sha512).digest()] *)
  hmac_sha512 : bytes -> bytes -> bytes;
  (** [bcrypt.hashpw(password, salt)] *)
  hashpw : bytes -> bytes -> bytes;
  (** [bcrypt.checkpw(password, hashed_password)] *)
  checkpw : bytes -> bytes -> bool;
  (** [hash((now, cpf, username))] *)
  builtin_hash : Z -> string -> string -> Z
}.

(** ** The [User] class *)

(** [datetime.date] *)
Record date := Date { year : Z; month : Z; day : Z }.

Module User.
Record t := mk {
  username : string;
  nome : string;
  sobrenome : string;
  cpf : string;
  endereço : option string;
  CEP : option string;
  data_de_nascimento : date;
  email : string;
  senha : bytes;
  id : Z
}.
End User.

Abbreviation User := User.t.

(** [self.senha = h] *)
Definition set_senha (self : User) (h : bytes) : User :=
  User.mk (User.username self) (User.nome self) (User.sobrenome self)
    (User.cpf self) (User.endereço self) (User.CEP self)
    (User.data_de_nascimento self) (User.email self) h (User.id self).

(** [self.id = n] *)
Definition set_id (self : User) (n : Z) : User :=
  User.mk (User.username self) (User.nome self) (User.sobrenome self)
    (User.cpf self) (User.endereço self) (User.CEP self)
    (User.data_de_nascimento self) (User.email self) (User.senha self) n.

(** [User.__new__]: [Some tt] stands for the fresh object
    [object.__new__(cls)], [None] for the [None] the method returns when a
    check fails. The checks are made in the order of the source. *)
Definition User_new (username nome sobrenome cpf : string)
    (data_de_nascimento : date) (email senha : string)
    (endereço CEP : option string) : option unit :=
  if negb (re_match cpf_pattern cpf) then None
  else if match CEP with
          | None => false
          | Some cep => negb (re_match cep_pattern cep)
          end then None
  else if negb (re_match email_pattern email) then None
  else if negb (re_match senha_pattern senha) then None
  else Some tt.

Section UserMethods.
Context `{Externals}.

(** [User.add_password]; [salt] is what [gensalt()] returns. *)
Definition add_password (self : User) (senha : string) (salt : bytes)
    : User :=
  let hash := hmac_sha512 (str_encode (User.cpf self)) (str_encode senha) in
  set_senha self (hashpw hash salt).


(** [User.__init__]; [salt] is what [gensalt()] returns and [now] what
    [datetime.datetime.now()] returns. The attributes [senha] and [id]
    do not exist before they are assigned: the record holds [[]] and [0]
    there until then. *)
Definition User_init (username nome sobrenome cpf : string)
    (data_de_nascimento : date) (email senha : string)
    (endereço CEP : option string) (salt : bytes) (now : Z) : User :=
  let self :=
    User.mk username nome sobrenome cpf endereço CEP data_de_nascimento
      email [] 0 in
  let self := add_password self senha salt in
  set_id self
    (Z.abs (builtin_hash now (User.cpf self) (User.username self))).

(** The call [User(...)]: [__new__], then [__init__] on the object when
    [__new__] returned one. *)
Definition User_call (username nome sobrenome cpf : string)
    (data_de_nascimento : date) (email senha : string)
    (endereço CEP : option string) (salt : bytes) (now : Z)
    : option User :=
  match User_new username nome sobrenome cpf data_de_nascimento email
          senha endereço CEP with
  | None => None
  | Some _ =>
      Some (User_init username nome sobrenome cpf data_de_nascimento
              email senha endereço CEP salt now)
  end.
End UserMethods.

(** ** The store *)

(** A Python [dict] from [str] to [User], in insertion order. *)
Abbreviation dict := (list (string * User)).

(** [d.get(k)] *)
Fixpoint dict_get (k : string) (d : dict) : option User :=
  match d with
  | [] => None
  | (k', v) :: d' => if String.eqb k' k then Some v else dict_get k d'
  end.

(** [d[k] = v]: a present key keeps its place, a new key goes last. *)
Fixpoint dict_set (k : string) (v : User) (d : dict) : dict :=
  match d with
  | [] => [(k, v)]
  | (k', v') :: d' =>
      if String.eqb k' k then (k', v) :: d' else (k', v') :: dict_set k v d'
  end.

(** [d.pop(k, None)]: the value removed, if any, and what is left. *)
Fixpoint dict_pop (k : string) (d : dict) : option User * dict :=
  match d with
  | [] => (None, [])
  | (k', v) :: d' =>
      if String.eqb k' k then (Some v, d')
      else let (r, d'') := dict_pop k d' in (r, (k', v) :: d'')
  end.

(** [for key, val in d.items(): if p(val): return val], then
    [return None]. *)
Fixpoint first_value (p : User -> bool) (d : dict) : option User :=
  match d with
  | [] => None
  | (key, val) :: d' => if p val then Some val else first_value p d'
  end.

(** [list(d.values())] *)
Definition dict_values (d : dict) : list User := map snd d.

(** What [jsonpickle.decode] does on a text: it raises, or returns a
    [dict] of users (the type [db] is declared with), or returns a value
    of another type. A [dict] that holds a value without the attributes
    of [User] is outside the model: [val.username] and [val.id] raise
    [AttributeError] on it. *)
Inductive decoded :=
| DecodeError
| DecodedDict (db : dict)
| DecodedOther.

(** [jsonpickle.encode] on a [dict] of users and [jsonpickle.decode]. The
    library is not part of the repository: the model is parametric in
    it. *)
Class Jsonpickle := {
  encode : dict -> string;
  decode : string -> decoded
}.

(** The serializer gives [d] back from the text it wrote for [d]. *)
Definition round_trips `{Jsonpickle} (d : dict) : Prop :=
  decode (encode d) = DecodedDict d.

(** The attributes of a [UserDatabase] object. *)
Record UserDatabase := mkDB { db : dict; file_path : string }.

(** The object and the files by path. *)
Record state := mkState { self : UserDatabase; disk : gmap string string }.

Inductive exn := JSONDecodeError.

(** A call returns a value or raises; either way it leaves a state. *)
Inductive outcome (A : Type) :=
| Ret (a : A) (st : state)
| Raise (e : exn) (st : state).
Arguments Ret {A} a st.
Arguments Raise {A} e st.

Definition M (A : Type) : Type := state -> outcome A.

Definition ret {A} (a : A) : M A := fun st => Ret a st.

Definition bind {A B} (m : M A) (f : A -> M B) : M B :=
  fun st =>
    match m st with
    | Ret a st' => f a st'
    | Raise e st' => Raise e st'
    end.

Notation "x <- m ;; k" := (bind m (fun x => k))
  (at level 100, m at next level, right associativity).
Notation "m ;; k" := (bind m (fun _ => k))
  (at level 100, right associativity).

(** A value of a returned tuple. *)
Inductive pyval :=
| PyBool (b : bool)
| PyStr (s : string).

(** The truth value of [User | None]: the class defines neither
    [__bool__] nor [__len__], so every [User] is true. *)
Definition truthy (o : option User) : bool :=
  match o with
  | Some _ => true
  | None => false
  end.

(** [self.db] *)
Definition get_db : M dict := fun st => Ret (db (self st)) st.

(** [self.db = d] *)
Definition set_db (d : dict) : M unit :=
  fun st => Ret tt (mkState (mkDB d (file_path (self st))) (disk st)).

Section Store.
Context `{Jsonpickle}.

(** [UserDatabase.write_to_file]: mode ['w+'] creates or truncates. *)
Definition write_to_file : M unit :=
  fun st =>
    let objetos := encode (db (self st)) in
    Ret tt (mkState (self st) (<[file_path (self st) := objetos]> (disk st))).

(** [UserDatabase.try_read_from_file] *)
Definition try_read_from_file : M unit :=
  fun st =>
    match disk st !! file_path (self st) with
    | None => write_to_file st
    | Some objetos =>
        match decode objetos with
        | DecodeError => Raise JSONDecodeError st
        | DecodedDict db => set_db db st
        | DecodedOther => Ret tt st
        end
    end.

(** [if update: self.try_read_from_file()] *)
Definition reload (update : bool) : M unit :=
  if update then try_read_from_file else ret tt.


(** [UserDatabase.get_user_by_cpf] *)
Definition get_user_by_cpf (cpf : string) (update : bool)
    : M (option User) :=
  reload update ;;
  d <- get_db ;;
  ret (dict_get cpf d).

(** [UserDatabase.get_user_by_username]: the first value, in the order
    of the [dict], whose [username] is the one asked for. *)
Definition get_user_by_username (username : string) (update : bool)
    : M (option User) :=
  reload update ;;
  d <- get_db ;;
  ret (first_value (fun val => String.eqb (User.username val) username) d).

(** [UserDatabase.get_user_by_id] *)
Definition get_user_by_id (id : Z) (update : bool) : M (option User) :=
  reload update ;;
  d <- get_db ;;
  ret (first_value (fun val => Z.eqb (User.id val) id) d).

(** [UserDatabase.get_user_list] *)
Definition get_user_list (update : bool) : M (list User) :=
  reload update ;;
  d <- get_db ;;
  ret (dict_values d).

(** [UserDatabase.add_user] *)
Definition add_user (user : User) (update : bool) : M (pyval * pyval) :=
  reload update ;;
  found <- get_user_by_cpf (User.cpf user) false ;;
  if truthy found then ret (PyBool false, PyStr "CPF") else
  found <- get_user_by_username (User.nome user) false ;;
  if truthy found then ret (PyBool false, PyStr "USER") else
  d <- get_db ;;
  set_db (dict_set (User.cpf user) user d) ;;
  write_to_file ;;
  ret (PyBool true, PyStr "SUCCESS").

(** [UserDatabase.signup] *)
Definition signup (user : User) : M (pyval * pyval) :=
  r <- add_user user true ;;
  ret (fst r, snd r).

(** [UserDatabase.remove_user_by_cpf] *)
Definition remove_user_by_cpf (cpf : string) (update : bool)
    : M (option User) :=
  reload update ;;
  d <- get_db ;;
  let (toreturn, d') := dict_pop cpf d in
  set_db d' ;;
  write_to_file ;;
  ret toreturn.
End Store.

(** ** Reference instances of the libraries

    One serializer and one set of primitives to run the model on: a
    JSON-like text format, and toy primitives. *)

Module Json.

Definition quote : ascii := ascii_of_nat 34.
Definition backslash : ascii := ascii_of_nat 92.

Definition special (c : ascii) : bool :=
  Ascii.eqb c quote || Ascii.eqb c backslash.

(** The characters of [s], a backslash before each quote and backslash,
    then the closing quote and [k]. *)
Fixpoint put_escaped (s k : string) : string :=
  match s with
  | EmptyString => String quote k
  | String c s' =>
      if special c then String backslash (String c (put_escaped s' k))
      else String c (put_escaped s' k)
  end.

Definition put_str (s k : string) : string := String quote (put_escaped s k).

Definition put_int (z : Z) (k : string) : string :=
  put_str (NilEmpty.string_of_int (Z.to_int z)) k.

Definition put_opt (o : option string) (k : string) : string :=
  match o with
  | None => "null" ++ k
  | Some s => put_str s k
  end.

Definition put_user (u : User) (k : string) : string :=
  "[" ++ put_str (User.username u)
  ("," ++ put_str (User.nome u)
  ("," ++ put_str (User.sobrenome u)
  ("," ++ put_str (User.cpf u)
  ("," ++ put_opt (User.endereço u)
  ("," ++ put_opt (User.CEP u)
  ("," ++ put_int (year (User.data_de_nascimento u))
  ("," ++ put_int (month (User.data_de_nascimento u))
  ("," ++ put_int (day (User.data_de_nascimento u))
  ("," ++ put_str (User.email u)
  ("," ++ put_str (string_of_list_byte (User.senha u))
  ("," ++ put_int (User.id u)
  ("]" ++ k)))))))))))).

Fixpoint put_entries (d : dict) (k : string) : string :=
  match d with
  | [] => "}" ++ k
  | (key, u) :: d' =>
      put_str key (":" ++ put_user u ("," ++ put_entries d' k))
  end.

Definition dumps (d : dict) : string := "{" ++ put_entries d "".

(** The text up to the closing quote, and what follows it. *)
Fixpoint get_escaped (s : string) : option (string * string) :=
  match s with
  | EmptyString => None
  | String c s' =>
      if Ascii.eqb c quote then Some (EmptyString, s')
      else if Ascii.eqb c backslash then
        match s' with
        | EmptyString => None
        | String c' s'' =>
            '(t, r) ← get_escaped s''; Some (String c' t, r)
        end
      else '(t, r) ← get_escaped s'; Some (String c t, r)
  end.

Definition lit (c : ascii) (s : string) : option string :=
  match s with
  | EmptyString => None
  | String c' s' => if Ascii.eqb c' c then Some s' else None
  end.

Definition get_str (s : string) : option (string * string) :=
  s' ← lit quote s; get_escaped s'.

Definition get_int (s : string) : option (Z * string) :=
  '(t, r) ← get_str s;
  d ← NilEmpty.int_of_string t;
  Some (Z.of_int d, r).

Definition get_opt (s : string) : option (option string * string) :=
  match s with
  | String "n" (String "u" (String "l" (String "l" r))) => Some (None, r)
  | _ => '(t, r) ← get_str s; Some (Some t, r)
  end.

Definition get_user (s : string) : option (User * string) :=
  s ← lit "[" s;
  '(username, s) ← get_str s; s ← lit "," s;
  '(nome, s) ← get_str s; s ← lit "," s;
  '(sobrenome, s) ← get_str s; s ← lit "," s;
  '(cpf, s) ← get_str s; s ← lit "," s;
  '(endereço, s) ← get_opt s; s ← lit "," s;
  '(CEP, s) ← get_opt s; s ← lit "," s;
  '(y, s) ← get_int s; s ← lit "," s;
  '(m, s) ← get_int s; s ← lit "," s;
  '(d, s) ← get_int s; s ← lit "," s;
  '(email, s) ← get_str s; s ← lit "," s;
  '(senha, s) ← get_str s; s ← lit "," s;
  '(id, s) ← get_int s; s ← lit "]" s;
  Some (User.mk username nome sobrenome cpf endereço CEP (Date y m d)
          email (list_byte_of_string senha) id, s).

Fixpoint get_entries (fuel : nat) (s : string) : option (dict * string) :=
  match fuel with
  | O => None
  | S fuel' =>
      match lit "}" s with
      | Some r => Some ([], r)
      | None =>
          '(key, s) ← get_str s; s ← lit ":" s;
          '(u, s) ← get_user s; s ← lit "," s;
          '(d, r) ← get_entries fuel' s;
          Some ((key, u) :: d, r)
      end
  end.

(** A text that is no value at all raises; an object is a [dict]; the
    empty array, [null] and a string are values of other types. *)
Definition loads (s : string) : decoded :=
  match lit "{" s with
  | Some r =>
      match get_entries (String.length s) r with
      | Some (d, EmptyString) => DecodedDict d
      | _ => DecodeError
      end
  | None =>
      if String.eqb s "[]" || String.eqb s "null" then DecodedOther
      else match get_str s with
           | Some (_, EmptyString) => DecodedOther
           | _ => DecodeError
           end
  end.

End Json.

Definition json : Jsonpickle :=
  {| encode := Json.dumps; decode := Json.loads |}.

(** Toy primitives with digests of 64 bytes: the digest is made of the
    first 64 bytes of the key, the message and a padding of zeros, the
    password hash is the password itself, and the builtin hash is the
    time. *)
Definition folded : Externals :=
  {| hmac_sha512 key msg := take 64 (key ++ msg ++ repeat x00 64)%list;
     hashpw password salt := password;
     checkpw password hashed := bool_decide (password = hashed);
     builtin_hash now cpf username := now |}.

(** ** The properties as the specification words them *)

(** [s] has one character for each test of [t], in order. *)
Fixpoint fits (t : list (ascii -> bool)) (s : string) : bool :=
  match t, s with
  | [], EmptyString => true
  | f :: t', String c s' => f c && fits t' s'
  | _, _ => false
  end.

Definition is_digit (c : ascii) : bool := in_range "0" "9" c.
Definition is_letter (c : ascii) : bool :=
  in_range "a" "z" c || in_range "A" "Z" c.
Definition is_char (x c : ascii) : bool := Ascii.eqb c x.

(** NNN.NNN.NNN-NN: three groups of three digits separated by dots, a
    hyphen, then two digits. *)
Definition NNN_NNN_NNN_NN : list (ascii -> bool) :=
  [is_digit; is_digit; is_digit; is_char ".";
   is_digit; is_digit; is_digit; is_char ".";
   is_digit; is_digit; is_digit; is_char "-";
   is_digit; is_digit].

Definition spec_cpf (s : string) : bool := fits NNN_NNN_NNN_NN s.

(** At least 8 characters, at least one digit and one letter. *)
Definition spec_senha (s : string) : bool :=
  (8 <=? String.length s)%nat && str_any is_digit s && str_any is_letter s.


(** The digests of [hmac.new(key, msg, hashlib.sha512)] have [n] bytes
    (64 for SHA-512). *)
Definition digest_size `{Externals} (n : nat) : Prop :=
  forall key msg : bytes, length (hmac_sha512 key msg) = n.



(** The tuples [add_user] returns. *)
Definition FAIL_CPF : pyval * pyval := (PyBool false, PyStr "CPF").
Definition FAIL_USER : pyval * pyval := (PyBool false, PyStr "USER").
Definition SUCCESS : pyval * pyval := (PyBool true, PyStr "SUCCESS").

(** The state [add_user] leaves when it inserts [user] into the mapping
    of [st]: the entry is set and the file holds the whole mapping. *)
Definition inserted `{Jsonpickle} (user : User) (st : state) : state :=
  let d := dict_set (User.cpf user) user (db (self st)) in
  mkState (mkDB d (file_path (self st)))
    (<[file_path (self st) := encode d]> (disk st)).

(** The state [write_to_file] leaves. *)
Definition persisted `{Jsonpickle} (st : state) : state :=
  mkState (self st)
    (<[file_path (self st) := encode (db (self st))]> (disk st)).

(** ** Values to run the model on *)

Definition nl (s : string) : string := s ++ String LF EmptyString.

Definition ana : User :=
  User.mk "ana123" "Ana" "Silva" "123.456.789-09" None None
    (Date 1990 1 1) "ana@x.com" [x24; x32; x62] 42.

(** Someone else whose username is Ana's given name. *)
Definition bob : User :=
  User.mk "Ana" "Roberto" "Lima" "111.222.333-44" None (Some "50740-560")
    (Date 1985 5 17) "bob@x.com" [x24; x32; x61] 43.

(** Two records with one national identifier. *)
Definition eva : User :=
  User.mk "eva1" "Ana" "Costa" "555.666.777-88" None None
    (Date 1992 3 9) "eva@x.com" [x24] 44.

Definition ivo : User :=
  User.mk "ivo1" "Ivo" "Costa" "555.666.777-88" None None
    (Date 1993 4 10) "ivo@x.com" [x25] 45.

Definition users_json : string := "users.json".

(** A new object, no file yet. *)
Definition st_new : state := mkState (mkDB [] users_json) ∅.

(** Bob is registered and the file holds the mapping. *)
Definition st_bob : state :=
  mkState (mkDB [(User.cpf bob, bob)] users_json)
    {[users_json := @encode json [(User.cpf bob, bob)]]}.

(** Ana is registered and the file has been emptied. *)
Definition st_emptied : state :=
  mkState (mkDB [(User.cpf ana, ana)] users_json) {[users_json := ""]}.

(** Ana is registered and the file has been deleted. *)
Definition st_deleted : state :=
  mkState (mkDB [(User.cpf ana, ana)] users_json) ∅.

(** A second object on the path, made before Ana was registered by
    another: its mapping is still empty and the file holds Ana. *)
Definition st_stale : state :=
  mkState (mkDB [] users_json)
    {[users_json := @encode json [(User.cpf ana, ana)]]}.

(** Ana is registered and the file holds an empty array. *)
Definition st_array : state :=
  mkState (mkDB [(User.cpf ana, ana)] users_json) {[users_json := "[]"]}.

(** ** Further definitions: shapes and invariants *)

(** NNNNN-NNN: five digits, a hyphen, three digits. *)
Definition NNNNN_NNN : list (ascii -> bool) :=
  [is_digit; is_digit; is_digit; is_digit; is_digit; is_char "-";
   is_digit; is_digit; is_digit].

(** [s] fits [t], or is a string that fits [t] followed by one line
    feed. *)
Definition fits_line (t : list (ascii -> bool)) (s : string) : bool :=
  fits t s || fits (t ++ [is_LF]) s.

(** What [\w] or a dot is. *)
Definition is_word_or_dot (c : ascii) : bool := is_word c || is_char "." c.

(** Every record is stored under its own national identifier. *)
Definition keyed_by_cpf (d : dict) : bool :=
  forallb (fun kv => String.eqb (fst kv) (User.cpf (snd kv))) d.

(** No key comes twice, as in a [dict]. *)
Fixpoint unique_keys (d : dict) : bool :=
  match d with
  | [] => true
  | (k, _) :: d' => negb (truthy (dict_get k d')) && unique_keys d'
  end.

(** The file of the object holds the serialization of its mapping. *)
Definition in_sync `{Jsonpickle} (st : state) : Prop :=
  disk st !! file_path (self st) = Some (encode (db (self st))).

(** The file of the object exists and the decoder rejects its content. *)
Definition malformed `{Jsonpickle} (st : state) : Prop :=
  exists objetos,
    disk st !! file_path (self st) = Some objetos
    /\ decode objetos = DecodeError.

(** The object of [st] with another mapping in memory. *)
Definition holding (d : dict) (st : state) : state :=
  mkState (mkDB d (file_path (self st))) (disk st).

(** Someone whose username is Bob's and whose given name is new. *)
Definition carla : User :=
  User.mk "Ana" "Carla" "Reis" "999.888.777-66" None None
    (Date 1991 7 21) "carla@x.com" [x26] 46.

(** Bob and Ivo are registered and the file holds the mapping. *)
Definition st_two : state :=
  mkState (mkDB [(User.cpf bob, bob); (User.cpf ivo, ivo)] users_json)
    {[users_json :=
        @encode json [(User.cpf bob, bob); (User.cpf ivo, ivo)]]}.

(** ** Lemmas and theorems *)

Example cpf_ok : re_match cpf_pattern "123.456.789-09" = true.
Proof. reflexivity. Qed.
Example cpf_no_punctuation : re_match cpf_pattern "12345678909" = false.
Proof. reflexivity. Qed.
Example cpf_longer : re_match cpf_pattern "123.456.789-090" = false.
Proof. reflexivity. Qed.
Example cpf_line_feed : re_match cpf_pattern (nl "123.456.789-09") = true.
Proof. reflexivity. Qed.
Example cep_ok : re_match cep_pattern "50740-560" = true.
Proof. reflexivity. Qed.
Example email_ok : re_match email_pattern "ana@x.com" = true.
Proof. reflexivity. Qed.
Example email_two_at : re_match email_pattern "ana@x@com" = false.
Proof. reflexivity. Qed.
Example senha_ok : re_match senha_pattern "senha123" = true.
Proof. reflexivity. Qed.
Example senha_short : re_match senha_pattern "senha12" = false.
Proof. reflexivity. Qed.
Example senha_no_digit : re_match senha_pattern "senhasenha" = false.
Proof. reflexivity. Qed.
Example senha_second_line :
  re_match senha_pattern (nl "abcdefgh" ++ "1") = false.
Proof. reflexivity. Qed.


(** *** The patterns *)

Lemma first_line_length (s : string) :
  String.length (first_line s) <= String.length s.
Proof.
  induction s as [|c s IH]; simpl; [lia|].
  destruct (is_LF c); simpl; lia.
Qed.

Lemma first_line_any (f : ascii -> bool) (s : string) :
  str_any f (first_line s) = true -> str_any f s = true.
Proof.
  induction s as [|c s IH]; simpl; [easy|].
  destruct (is_LF c); simpl; [easy|].
  destruct (f c); simpl; auto.
Qed.

Lemma first_line_no_LF (s : string) :
  str_any is_LF s = false -> first_line s = s.
Proof.
  induction s as [|c s IH]; simpl; [easy|].
  destruct (is_LF c); simpl; [easy|].
  intros Hs. now rewrite IH.
Qed.

Lemma str_any_ext (f g : ascii -> bool) (s : string) :
  (forall c, f c = g c) -> str_any f s = str_any g s.
Proof.
  intros Hfg. induction s as [|c s IH]; simpl; [easy|].
  now rewrite Hfg, IH.
Qed.

(** [.{lo,}] followed by nothing: the first line has [lo] characters. *)
Lemma rep_any_at_least (s : string) (lo : nat) (start : bool) :
  rep (fun _ _ => true) Any lo None start s
  = (lo <=? String.length (first_line s))%nat.
Proof.
  revert lo start.
  induction s as [|c s IH]; intros lo start; simpl.
  - now destruct lo.
  - destruct (is_LF c); simpl.
    + now destruct lo.
    + rewrite IH.
      destruct lo; simpl; rewrite ?orb_true_r, ?orb_false_r; reflexivity.
Qed.

(** [.*X.*] for a set [X] without the line feed: the first line has a
    character of [X]. *)
Lemma run_star_one_star (cs : cset) (s : string) (start : bool) :
  mem cs LF = false ->
  run (seq [star Any; One cs; star Any]) start s (fun _ _ => true)
  = str_any (mem cs) (first_line s).
Proof.
  intros HLF. simpl. revert start.
  induction s as [|c s IH]; intros start; simpl; [easy|].
  rewrite rep_any_at_least. simpl. rewrite !andb_true_r.
  destruct (is_LF c) eqn:Hc; simpl.
  - apply Ascii.eqb_eq in Hc. subst c. now rewrite HLF.
  - rewrite IH. apply orb_comm.
Qed.

Lemma mem_d09 (c : ascii) : mem d09 c = is_digit c.
Proof. apply orb_false_r. Qed.

Lemma mem_azAZ (c : ascii) : mem azAZ c = is_letter c.
Proof. unfold is_letter. simpl. now rewrite orb_false_r. Qed.

(** What [senha_pattern.match] decides: the part of the password before
    its first line feed has 8 characters, a digit and a letter. *)
Lemma senha_pattern_first_line (s : string) :
  re_match senha_pattern s = spec_senha (first_line s).
Proof.
  change (re_match senha_pattern s) with
    (run (at_least 8 Any) true s (fun _ _ => true)
     && (run (seq [star Any; One d09; star Any]) true s (fun _ _ => true)
     && (run (seq [star Any; One azAZ; star Any]) true s (fun _ _ => true)
     && true))).
  rewrite !run_star_one_star by reflexivity.
  unfold at_least, spec_senha. cbn [run]. rewrite rep_any_at_least.
  rewrite (str_any_ext _ _ _ mem_d09), (str_any_ext _ _ _ mem_azAZ).
  now rewrite andb_true_r, andb_assoc.
Qed.

Lemma senha_pattern_sound (s : string) :
  re_match senha_pattern s = true -> spec_senha s = true.
Proof.
  rewrite senha_pattern_first_line. unfold spec_senha.
  rewrite !andb_true_iff, !Nat.leb_le.
  intros [[Hlen Hd] Hl]. pose proof (first_line_length s).
  repeat split; [lia | |]; now apply first_line_any.
Qed.

Lemma senha_pattern_no_LF (s : string) :
  str_any is_LF s = false -> re_match senha_pattern s = spec_senha s.
Proof.
  intros Hs. now rewrite senha_pattern_first_line, first_line_no_LF.
Qed.

Lemma rep_none (k : bool -> string -> bool) cs start s :
  rep k cs 0 (Some 0) start s = k start s.
Proof. destruct s; simpl; [easy|]. now rewrite andb_false_r. Qed.

Lemma rep_exactly_eat (k : bool -> string -> bool) (k' : string -> bool)
    (t : list (ascii -> bool)) (cs : cset) (n : nat) :
  (forall start s, k start s = eat t k' s) ->
  forall start s,
    rep k cs (S n) (Some (S n)) start s
    = eat (repeat (mem cs) (S n) ++ t) k' s.
Proof.
  intros Hk. induction n as [|n IH]; intros start s.
  - destruct s as [|c s]; simpl; [easy|].
    rewrite andb_true_r, orb_false_r.
    destruct (mem cs c); simpl; [|easy].
    rewrite rep_none. apply Hk.
  - destruct s as [|c s]; [easy|].
    change (rep k cs (S (S n)) (Some (S (S n))) start (String c s))
      with (if mem cs c && true
            then rep k cs (S n) (Some (S n)) false s || false else false).
    rewrite andb_true_r, orb_false_r, IH.
    change (eat (repeat (mem cs) (S (S n)) ++ t) k' (String c s))
      with (mem cs c && eat (repeat (mem cs) (S n) ++ t) k' s).
    now destruct (mem cs c).
Qed.

Lemma run_seq_rep_eat (k : bool -> string -> bool) (k' : string -> bool)
    (t : list (ascii -> bool)) (cs : cset) (n : nat) (r : regex) :
  (forall start s, run r start s k = eat t k' s) ->
  forall start s,
    run (Seq (Rep cs (S n) (Some (S n))) r) start s k
    = eat (repeat (mem cs) (S n) ++ t) k' s.
Proof. intros Hr start s. now apply rep_exactly_eat. Qed.

Lemma run_seq_one_eat (k : bool -> string -> bool) (k' : string -> bool)
    (t : list (ascii -> bool)) (cs : cset) (r : regex) :
  (forall start s, run r start s k = eat t k' s) ->
  forall start s, run (Seq (One cs) r) start s k = eat (mem cs :: t) k' s.
Proof.
  intros Hr start [|c s]; simpl; [easy|]. now rewrite Hr.
Qed.

Lemma run_eol_eat (start : bool) (s : string) :
  run Eol start s (fun _ _ => true) = eat [] at_end s.
Proof. apply andb_true_r. Qed.

Lemma eat_at_end (t : list (ascii -> bool)) (s : string) :
  eat t at_end s = fits t s || fits (t ++ [is_LF]) s.
Proof.
  revert s. induction t as [|f t IH]; intros s.
  - destruct s as [|c [|c' s]]; simpl; try easy.
    + now rewrite andb_true_r.
    + now rewrite andb_false_r.
  - destruct s as [|c s]; simpl; [easy|].
    rewrite IH. apply andb_orb_distrib_r.
Qed.

Lemma fits_ext (t t' : list (ascii -> bool)) (s : string) :
  Forall2 (fun f g => forall c, f c = g c) t t' -> fits t s = fits t' s.
Proof.
  intros Ht. revert s.
  induction Ht as [|f g t t' Hfg _ IH]; intros [|c s]; simpl; try easy.
  now rewrite Hfg, IH.
Qed.

Lemma cpf_pattern_eat (s : string) :
  re_match cpf_pattern s
  = eat (repeat (mem d09) 3 ++ mem (Chr ".") :: repeat (mem d09) 3 ++
         mem (Chr ".") :: repeat (mem d09) 3 ++ mem (Chr "-") ::
         repeat (mem d09) 2 ++ []) at_end s.
Proof.
  unfold re_match, cpf_pattern, exactly. cbn [seq].
  change (run (Seq Bol ?r) true s ?k) with (run r true s k).
  repeat first [ apply run_seq_rep_eat; intros ? ?
               | apply run_seq_one_eat; intros ? ?
               | apply run_eol_eat ].
Qed.

Lemma cpf_pattern_shape (s : string) :
  re_match cpf_pattern s
  = spec_cpf s || fits (NNN_NNN_NNN_NN ++ [is_LF]) s.
Proof.
  rewrite cpf_pattern_eat, eat_at_end. unfold spec_cpf.
  f_equal; apply fits_ext; cbn [repeat app NNN_NNN_NNN_NN];
    repeat constructor; try (intros c; apply orb_false_r).
Qed.

(** *** The [User] class *)

Lemma byte_of_ascii_inj (a b : ascii) :
  byte_of_ascii a = byte_of_ascii b -> a = b.
Proof.
  intros Hab. rewrite <- (ascii_of_byte_of_ascii a), Hab.
  apply ascii_of_byte_of_ascii.
Qed.

Lemma N_of_ascii_inj (a b : ascii) : N_of_ascii a = N_of_ascii b -> a = b.
Proof.
  intros Hab. rewrite <- (ascii_N_embedding a), Hab. apply ascii_N_embedding.
Qed.

Lemma utf8_char_inj (c c' : ascii) (r r' : bytes) :
  (utf8_char c ++ r = utf8_char c' ++ r')%list -> c = c' /\ r = r'.
Proof.
  unfold utf8_char.
  pose proof (N_ascii_bounded c) as Hc. pose proof (N_ascii_bounded c') as Hc'.
  pose proof (N.div_mod (N_of_ascii c) 64 ltac:(lia)) as Hn.
  pose proof (N.div_mod (N_of_ascii c') 64 ltac:(lia)) as Hn'.
  pose proof (N.mod_lt (N_of_ascii c) 64 ltac:(lia)) as Hm.
  pose proof (N.mod_lt (N_of_ascii c') 64 ltac:(lia)) as Hm'.
  revert Hn Hn' Hm Hm'.
  generalize (N_of_ascii c / 64)%N (N_of_ascii c mod 64)%N
    (N_of_ascii c' / 64)%N (N_of_ascii c' mod 64)%N.
  intros q m q' m' Hn Hn' Hm Hm'.
  destruct (N.ltb_spec (N_of_ascii c) 128) as [Hlt|Hge],
    (N.ltb_spec (N_of_ascii c') 128) as [Hlt'|Hge'];
    simpl; intros Heq.
  - injection Heq as Heq Hr. apply byte_of_ascii_inj in Heq. now subst.
  - exfalso. injection Heq as Heq _. apply byte_of_ascii_inj in Heq.
    apply (f_equal N_of_ascii) in Heq.
    rewrite N_ascii_embedding in Heq by lia. lia.
  - exfalso. injection Heq as Heq _. apply byte_of_ascii_inj in Heq.
    apply (f_equal N_of_ascii) in Heq.
    rewrite N_ascii_embedding in Heq by lia. lia.
  - injection Heq as Heq Hb Hr.
    apply byte_of_ascii_inj in Heq, Hb.
    apply (f_equal N_of_ascii) in Heq, Hb.
    rewrite !N_ascii_embedding in Heq, Hb by lia.
    split; [|easy]. apply N_of_ascii_inj. lia.
Qed.

Lemma str_encode_inj (s s' : string) : str_encode s = str_encode s' -> s = s'.
Proof.
  revert s'. induction s as [|c s IH]; intros [|c' s']; simpl; try easy.
  - unfold utf8_char. destruct (_ <? _)%N; easy.
  - unfold utf8_char. destruct (_ <? _)%N; easy.
  - intros Heq. apply utf8_char_inj in Heq as [-> Heq]. f_equal. now apply IH.
Qed.

(** *** The password protocol *)

#[local] Instance of_bits_inj : Inj (=) (=) Byte.of_bits.
Proof.
  intros x y Heq. apply (f_equal Byte.to_bits) in Heq.
  now rewrite !Byte.to_bits_of_bits in Heq.
Qed.

#[local] Instance of_bits_surj : Surj (=) Byte.of_bits.
Proof. intros b. exists (Byte.to_bits b). apply Byte.of_bits_to_bits. Qed.

#[local] Instance byte_finite : Finite Byte.byte :=
  bijective_finite Byte.of_bits.









(** The two conditions on the primitives can be met together. *)
Lemma folded_digest_size : @digest_size folded 64.
Proof.
  intros key msg. cbn [hmac_sha512 folded].
  rewrite length_take, !length_app, repeat_length. lia.
Qed.



Lemma User_call_checks_cpf `{Externals} username nome sobrenome cpf data email
    senha endereço CEP salt now :
  re_match cpf_pattern cpf = false ->
  User_call username nome sobrenome cpf data email senha endereço CEP salt now
  = None.
Proof. intros Hcpf. unfold User_call, User_new. now rewrite Hcpf. Qed.

Lemma User_call_checks_senha `{Externals} username nome sobrenome cpf data
    email senha endereço CEP salt now :
  re_match senha_pattern senha = false ->
  User_call username nome sobrenome cpf data email senha endereço CEP salt now
  = None.
Proof.
  intros Hsenha. unfold User_call, User_new. rewrite Hsenha. simpl.
  destruct (negb (re_match cpf_pattern cpf)); [easy|].
  destruct CEP as [cep|]; [destruct (negb (re_match cep_pattern cep))|];
    try easy; now destruct (negb (re_match email_pattern email)).
Qed.

(** The half of the password rule the code keeps: a password shorter than
    8, or without a digit, or without a letter, gives no object. *)
Lemma User_call_weak_senha `{Externals} username nome sobrenome cpf data
    email senha endereço CEP salt now :
  spec_senha senha = false ->
  User_call username nome sobrenome cpf data email senha endereço CEP salt now
  = None.
Proof.
  intros Hweak. apply User_call_checks_senha.
  destruct (re_match senha_pattern senha) eqn:Hm; [|easy].
  apply senha_pattern_sound in Hm. congruence.
Qed.

(** A password without line feed that has 8 characters, a digit and a
    letter passes the check. *)
Lemma senha_one_line (senha : string) :
  str_any is_LF senha = false -> spec_senha senha = true ->
  re_match senha_pattern senha = true.
Proof. intros HLF Hs. now rewrite senha_pattern_no_LF. Qed.

(** What the national identifier of an object looks like: NNN.NNN.NNN-NN,
    with or without a line feed after it. *)
Lemma User_call_cpf_shape `{Externals} username nome sobrenome cpf data email
    senha endereço CEP salt now u :
  User_call username nome sobrenome cpf data email senha endereço CEP salt now
  = Some u ->
  spec_cpf cpf = true \/ fits (NNN_NNN_NNN_NN ++ [is_LF]) cpf = true.
Proof.
  intros Hu. apply orb_true_iff. rewrite <- cpf_pattern_shape.
  destruct (re_match cpf_pattern cpf) eqn:Hm; [easy|].
  now rewrite User_call_checks_cpf in Hu.
Qed.

(** The example of the specification: the call with Ana's data gives an
    object, the call with a national identifier without punctuation gives
    none. *)
Example User_call_ana `{Externals} (salt : bytes) (now : Z) :
  User_call "ana123" "Ana" "Silva" "123.456.789-09" (Date 1990 1 1)
    "ana@x.com" "senha123" None None salt now <> None
  /\ User_call "ana123" "Ana" "Silva" "12345678909" (Date 1990 1 1)
       "ana@x.com" "senha123" None None salt now = None.
Proof. split; [discriminate | reflexivity]. Qed.

(** Claim C5 fails on the code. The national identifier
    ["123.456.789-09\n"] is not of the form NNN.NNN.NNN-NN, and the call
    [User(...)] with it and otherwise valid arguments returns an object
    that keeps it: [$] also matches before a line feed that ends the
    string. *)
Theorem C5_cpf_line_feed `{Externals} (salt : bytes) (now : Z) :
  spec_cpf (nl "123.456.789-09") = false
  /\ exists u,
       User_call "ana123" "Ana" "Silva" (nl "123.456.789-09")
         (Date 1990 1 1) "ana@x.com" "senha123" None None salt now = Some u
       /\ User.cpf u = nl "123.456.789-09".
Proof. split; [reflexivity|]. eexists. split; reflexivity. Qed.

(** Claim C6 fails on the code. The password ["abc\ndefgh1"] has 10
    characters, a digit and a letter, and [senha_pattern.match] rejects
    it, so that [User(...)] returns [None]: [.] does not match a line
    feed, and the three lookaheads only see the first line. *)
Theorem C6_senha_line_feed `{Externals} (salt : bytes) (now : Z) :
  spec_senha (nl "abc" ++ "defgh1") = true
  /\ re_match senha_pattern (nl "abc" ++ "defgh1") = false
  /\ User_call "ana123" "Ana" "Silva" "123.456.789-09" (Date 1990 1 1)
       "ana@x.com" (nl "abc" ++ "defgh1") None None salt now = None.
Proof. repeat split; reflexivity. Qed.

(** *** The store *)

Lemma dict_get_set_eq (k : string) (v : User) (d : dict) :
  dict_get k (dict_set k v d) = Some v.
Proof.
  induction d as [|[k' v'] d IH]; simpl.
  - now rewrite String.eqb_refl.
  - destruct (String.eqb k' k) eqn:Hk; simpl; now rewrite Hk.
Qed.

Lemma dict_set_fresh (k : string) (v : User) (d : dict) :
  dict_get k d = None -> dict_set k v d = (d ++ [(k, v)])%list.
Proof.
  induction d as [|[k' v'] d IH]; simpl; [easy|].
  destruct (String.eqb k' k); [easy|]. intros Hd. now rewrite IH.
Qed.

Lemma dict_pop_absent (k : string) (d : dict) :
  dict_get k d = None -> dict_pop k d = (None, d).
Proof.
  induction d as [|[k' v'] d IH]; simpl; [easy|].
  destruct (String.eqb k' k); [easy|]. intros Hd. now rewrite IH.
Qed.

Lemma dict_get_None (k : string) (d : dict) :
  dict_get k d = None <-> ~ In k (map fst d).
Proof.
  induction d as [|[k' v'] d IH]; simpl; [tauto|].
  destruct (String.eqb_spec k' k) as [->|Hne]; [split; [easy|tauto]|].
  rewrite IH. tauto.
Qed.

Lemma first_value_Some (p : User -> bool) (d : dict) :
  (exists found, first_value p d = Some found)
  <-> exists key val, In (key, val) d /\ p val = true.
Proof.
  induction d as [|[k v] d IH]; simpl.
  - split; [intros [? [=]] | intros (? & ? & Hin & _); destruct Hin].
  - destruct (p v) eqn:Hv.
    + split; [intros _; exists k, v; auto | eauto].
    + rewrite IH. split.
      * intros (key & val & Hin & Hp). eauto 6.
      * intros (key & val & [[= -> ->]|Hin] & Hp); [congruence | eauto].
Qed.

Lemma truthy_false (o : option User) : truthy o = false <-> o = None.
Proof. destruct o; simpl; split; congruence. Qed.

Lemma truthy_true (o : option User) :
  truthy o = true <-> exists found, o = Some found.
Proof.
  destruct o; simpl; split; [eauto | easy | easy | intros [? [=]]].
Qed.

Section StoreFacts.
Context `{Jsonpickle}.

Lemma state_eta (st : state) :
  mkState (mkDB (db (self st)) (file_path (self st))) (disk st) = st.
Proof. now destruct st as [[d p] fs]. Qed.

Lemma write_to_file_persisted (st : state) :
  write_to_file st = Ret tt (persisted st).
Proof. reflexivity. Qed.

(** What [add_user] does after the optional reload. *)
Lemma add_user_unfold (user : User) (update : bool) (st : state) :
  add_user user update st
  = match reload update st with
    | Ret _ st1 =>
        if truthy (dict_get (User.cpf user) (db (self st1)))
        then Ret FAIL_CPF st1
        else if truthy (first_value
                          (fun val => String.eqb (User.username val)
                                        (User.nome user))
                          (db (self st1)))
             then Ret FAIL_USER st1
             else Ret SUCCESS (inserted user st1)
    | Raise e st1 => Raise e st1
    end.
Proof.
  unfold add_user, bind. destruct (reload update st) as [[] st1|e st1];
    [|reflexivity].
  simpl. destruct (truthy (dict_get _ _)); [reflexivity|].
  simpl. now destruct (truthy (first_value _ _)).
Qed.

(** What [remove_user_by_cpf] does after the optional reload. *)
Lemma remove_user_by_cpf_unfold (cpf : string) (update : bool) (st : state) :
  remove_user_by_cpf cpf update st
  = match reload update st with
    | Ret _ st1 =>
        Ret (fst (dict_pop cpf (db (self st1))))
          (persisted (mkState (mkDB (snd (dict_pop cpf (db (self st1))))
                                 (file_path (self st1))) (disk st1)))
    | Raise e st1 => Raise e st1
    end.
Proof.
  unfold remove_user_by_cpf, bind.
  destruct (reload update st) as [[] st1|e st1]; [|reflexivity].
  simpl. now destruct (dict_pop cpf (db (self st1))).
Qed.

(** Reading the file the store has just written gives the mapping
    back. *)
Lemma try_read_persisted (st : state) :
  round_trips (db (self st)) ->
  try_read_from_file (persisted st) = Ret tt (persisted st).
Proof.
  intros Hrt. unfold try_read_from_file, persisted. simpl.
  rewrite lookup_insert_eq. rewrite Hrt. unfold set_db. simpl.
  now destruct st as [[d p] fs].
Qed.

(** Reading a second time changes nothing. *)
Lemma try_read_again (st st1 : state) :
  try_read_from_file st = Ret tt st1 ->
  round_trips (db (self st1)) ->
  try_read_from_file st1 = Ret tt st1.
Proof.
  unfold try_read_from_file at 1.
  destruct (disk st !! file_path (self st)) as [objetos|] eqn:Hfile.
  - destruct (decode objetos) as [|d|] eqn:Hdec; [easy| |].
    + intros [= <-] _. unfold try_read_from_file. simpl.
      now rewrite Hfile, Hdec.
    + intros [= <-] _. unfold try_read_from_file. now rewrite Hfile, Hdec.
  - rewrite write_to_file_persisted. intros [= <-] Hrt.
    now apply try_read_persisted.
Qed.

Lemma reload_again (update : bool) (st st1 : state) :
  reload update st = Ret tt st1 ->
  round_trips (db (self st1)) ->
  reload update st1 = Ret tt st1.
Proof.
  destruct update; simpl; [apply try_read_again | reflexivity].
Qed.
End StoreFacts.

(** *** The reference serializer *)

Module JsonFacts.
Import Json.

Lemma get_escaped_put (s k : string) :
  get_escaped (put_escaped s k) = Some (s, k).
Proof.
  induction s as [|c s IH]; [reflexivity|].
  cbn [put_escaped]. unfold special.
  destruct (Ascii.eqb c quote) eqn:Hq; cbn [orb].
  - cbn [get_escaped]. change (Ascii.eqb backslash quote) with false.
    change (Ascii.eqb backslash backslash) with true. cbv iota.
    now rewrite IH.
  - destruct (Ascii.eqb c backslash) eqn:Hb.
    + cbn [get_escaped]. change (Ascii.eqb backslash quote) with false.
      change (Ascii.eqb backslash backslash) with true. cbv iota.
      now rewrite IH.
    + cbn [get_escaped]. now rewrite Hq, Hb, IH.
Qed.

Lemma get_str_put (s k : string) : get_str (put_str s k) = Some (s, k).
Proof. apply get_escaped_put. Qed.

Lemma get_int_put (z : Z) (k : string) : get_int (put_int z k) = Some (z, k).
Proof.
  unfold get_int, put_int. rewrite get_str_put. cbn [mbind option_bind].
  rewrite NilEmpty.isi. cbn [mbind option_bind].
  now rewrite DecimalZ.of_to.
Qed.

Lemma get_opt_put (o : option string) (k : string) :
  get_opt (put_opt o k) = Some (o, k).
Proof.
  destruct o as [s|]; [|reflexivity].
  cbn [put_opt].
  replace (get_opt (put_str s k))
    with (match get_str (put_str s k) with
          | Some (t, r) => Some (Some t, r)
          | None => None
          end) by reflexivity.
  now rewrite get_str_put.
Qed.

Lemma get_user_put (u : User) (k : string) :
  get_user (put_user u k) = Some (u, k).
Proof.
  destruct u as [username nome sobrenome cpf endereço CEP [y m d] email
                   senha id].
  unfold get_user, put_user. cbn [User.username User.nome User.sobrenome
    User.cpf User.endereço User.CEP User.data_de_nascimento User.email
    User.senha User.id year month day].
  change (lit "[" ("[" ++ ?x)) with (Some x). cbn [mbind option_bind].
  repeat (first [ rewrite get_str_put | rewrite get_opt_put
                | rewrite get_int_put ];
          cbn [mbind option_bind];
          first [ change (lit "," ("," ++ ?x)) with (Some x)
                | change (lit "]" ("]" ++ ?x)) with (Some x) ];
          cbn [mbind option_bind]).
  now rewrite list_byte_of_string_of_list_byte.
Qed.

Lemma le_put_escaped (s k : string) (n : nat) :
  n <= String.length k -> S n <= String.length (put_escaped s k).
Proof.
  intros Hn. induction s as [|c s IH]; simpl; [lia|].
  destruct (special c); simpl; lia.
Qed.

Lemma le_put_str (s k : string) (n : nat) :
  n <= String.length k -> n <= String.length (put_str s k).
Proof.
  intros Hn. pose proof (le_put_escaped s k n Hn). simpl. lia.
Qed.

Lemma le_put_opt (o : option string) (k : string) (n : nat) :
  n <= String.length k -> n <= String.length (put_opt o k).
Proof.
  intros Hn. destruct o as [s|]; [now apply le_put_str |].
  change (n <= 4 + String.length k). lia.
Qed.

Lemma le_String (c : ascii) (k : string) (n : nat) :
  n <= String.length k -> n <= String.length (String c k).
Proof. simpl. lia. Qed.

Lemma le_put_user (u : User) (k : string) (n : nat) :
  n <= String.length k -> n <= String.length (put_user u k).
Proof.
  intros Hn. unfold put_user, put_int.
  repeat first [ apply le_put_str | apply le_put_opt
               | apply (le_String _ _ n) ].
  exact Hn.
Qed.

Lemma put_entries_length (d : dict) (k : string) :
  length d < String.length (put_entries d k).
Proof.
  induction d as [|[key u] d IH]; [simpl; lia|].
  change (S (length d)
          < S (String.length
                 (put_escaped key
                    (String ":" (put_user u
                                   (String "," (put_entries d k))))))).
  enough (S (S (length d))
          <= String.length
               (put_escaped key
                  (String ":" (put_user u (String "," (put_entries d k))))))
    by lia.
  apply le_put_escaped, le_String, le_put_user, le_String. lia.
Qed.

Lemma get_entries_put (d : dict) (k : string) (fuel : nat) :
  length d < fuel -> get_entries fuel (put_entries d k) = Some (d, k).
Proof.
  revert fuel. induction d as [|[key u] d IH]; intros [|fuel] Hfuel;
    try (simpl in Hfuel; lia).
  - reflexivity.
  - cbn [get_entries put_entries].
    replace (lit "}" (put_str key (":" ++ put_user u ("," ++ put_entries d k))))
      with (@None string) by reflexivity.
    rewrite get_str_put. cbn [mbind option_bind].
    change (lit ":" (":" ++ ?x)) with (Some x). cbn [mbind option_bind].
    rewrite get_user_put. cbn [mbind option_bind].
    change (lit "," ("," ++ ?x)) with (Some x). cbn [mbind option_bind].
    rewrite IH by (simpl in Hfuel; lia). reflexivity.
Qed.

Lemma loads_dumps (d : dict) : loads (dumps d) = DecodedDict d.
Proof.
  unfold loads, dumps.
  change (lit "{" ("{" ++ ?x)) with (Some x). cbv iota.
  rewrite get_entries_put; [reflexivity|].
  pose proof (put_entries_length d "").
  change (length d < S (String.length (put_entries d ""))). lia.
Qed.
End JsonFacts.

(** The reference serializer gives every mapping back. *)
Lemma json_round_trips (d : dict) : @round_trips json d.
Proof. apply JsonFacts.loads_dumps. Qed.

(** *** The claims on the store *)

(** Claim C1 as stated fails. Bob's username is ["Ana"]; Eva and Ivo have
    the same national identifier, and Eva's given name is ["Ana"]. The
    call with Eva fails with ["USER"] and inserts nothing, so the call
    with Ivo succeeds instead of failing with ["CPF"]. *)
Lemma C1_counterexample :
  User.cpf eva = User.cpf ivo
  /\ exists st1,
       @add_user json eva true st_bob = Ret FAIL_USER st1
       /\ (exists st2, @add_user json ivo true st1 = Ret SUCCESS st2)
       /\ ~ exists st2, @add_user json ivo true st1 = Ret FAIL_CPF st2.
Proof.
  split; [reflexivity|].
  eexists. split; [vm_compute; reflexivity|]. split.
  - eexists. vm_compute. reflexivity.
  - intros [st2 Hst2]. vm_compute in Hst2. discriminate.
Qed.

(** Claim C1, amended. If [add_user] is called with a first record and
    does not fail with ["USER"], and the serializer gives back the mapping
    then held, a second call with a record of the same national
    identifier (same [update]) returns [(False, "CPF")]; and in general
    [add_user] returns [(False, "CPF")] whenever the mapping held after
    the optional reload has a record under the national identifier. *)
Theorem C1_duplicate_cpf `{Jsonpickle} :
  (forall (st st1 : state) (r1 r2 : User) (update : bool)
          (res1 : pyval * pyval),
      User.cpf r1 = User.cpf r2 ->
      add_user r1 update st = Ret res1 st1 ->
      res1 <> FAIL_USER ->
      round_trips (db (self st1)) ->
      add_user r2 update st1 = Ret FAIL_CPF st1)
  /\ (forall (st st1 : state) (user found : User) (update : bool),
        reload update st = Ret tt st1 ->
        dict_get (User.cpf user) (db (self st1)) = Some found ->
        add_user user update st = Ret FAIL_CPF st1).
Proof.
  assert (Hgen : forall (st st1 : state) (user found : User) (update : bool),
             reload update st = Ret tt st1 ->
             dict_get (User.cpf user) (db (self st1)) = Some found ->
             add_user user update st = Ret FAIL_CPF st1).
  { intros st st1 user found update Hre Hget.
    now rewrite add_user_unfold, Hre, Hget. }
  split; [|exact Hgen].
  intros st st1 r1 r2 update res1 Hcpf Hadd Hres Hrt.
  rewrite add_user_unfold in Hadd.
  destruct (reload update st) as [[] sa|] eqn:Hre; [|easy].
  destruct (dict_get (User.cpf r1) (db (self sa))) as [found|] eqn:Hget;
    simpl in Hadd.
  - injection Hadd as <- <-.
    apply (Hgen _ _ _ found); [now apply (reload_again update st) | congruence].
  - destruct (truthy (first_value _ _)); injection Hadd as <- <-; [easy|].
    apply (Hgen _ _ _ r1).
    + destruct update; [|reflexivity].
      apply (try_read_persisted
               (mkState (mkDB (dict_set (User.cpf r1) r1 (db (self sa)))
                           (file_path (self sa))) (disk sa))).
      exact Hrt.
    + rewrite <- Hcpf. apply dict_get_set_eq.
Qed.

Lemma C1_duplicate_cpf_witness :
  (User.cpf ana = User.cpf ana
   /\ @add_user json ana true st_new = Ret SUCCESS (@inserted json ana st_new)
   /\ SUCCESS <> FAIL_USER
   /\ @round_trips json (db (self (@inserted json ana st_new)))
   /\ @add_user json ana true (@inserted json ana st_new)
      = Ret FAIL_CPF (@inserted json ana st_new))
  /\ (@reload json true st_bob = Ret tt st_bob
      /\ dict_get (User.cpf bob) (db (self st_bob)) = Some bob
      /\ @add_user json bob true st_bob = Ret FAIL_CPF st_bob).
Proof.
  assert (H1 : @add_user json ana true st_new
               = Ret SUCCESS (@inserted json ana st_new))
    by (vm_compute; reflexivity).
  assert (H2 : SUCCESS <> FAIL_USER) by discriminate.
  assert (H3 : @round_trips json (db (self (@inserted json ana st_new))))
    by (vm_compute; reflexivity).
  assert (H4 : @reload json true st_bob = Ret tt st_bob)
    by (vm_compute; reflexivity).
  assert (H5 : dict_get (User.cpf bob) (db (self st_bob)) = Some bob)
    by reflexivity.
  split.
  - refine (conj eq_refl (conj H1 (conj H2 (conj H3 _)))).
    exact (proj1 (@C1_duplicate_cpf json) _ _ ana ana true _ eq_refl H1 H2 H3).
  - refine (conj H4 (conj H5 _)).
    exact (proj2 (@C1_duplicate_cpf json) _ _ bob bob true H4 H5).
Defined.

Section Lookups.
Context `{Jsonpickle}.

Lemma get_user_by_cpf_held (cpf : string) (st : state) :
  get_user_by_cpf cpf false st = Ret (dict_get cpf (db (self st))) st.
Proof. reflexivity. Qed.

Lemma get_user_by_username_held (username : string) (st : state) :
  get_user_by_username username false st
  = Ret (first_value (fun val => String.eqb (User.username val) username)
           (db (self st))) st.
Proof. reflexivity. Qed.

(** The lookup by username finds a record exactly when the mapping has
    a record with that username. *)
Lemma get_user_by_username_finds (username : string) (st : state) :
  (exists found,
      get_user_by_username username false st = Ret (Some found) st)
  <-> exists key val,
        In (key, val) (db (self st)) /\ User.username val = username.
Proof.
  rewrite get_user_by_username_held.
  transitivity (exists found,
                   first_value
                     (fun val => String.eqb (User.username val) username)
                     (db (self st)) = Some found).
  - split; intros [found Hf]; exists found; congruence.
  - rewrite first_value_Some.
    split; intros (key & val & Hin & Hu); exists key, val;
      (split; [easy|]); now apply String.eqb_eq.
Qed.
End Lookups.

(** Claim C2. After the optional reload, [add_user] returns
    [(False, "USER")] exactly when the lookup by national identifier
    finds nothing (no ["CPF"] failure) and the lookup by username, applied
    to the given name [nome] of the new record, finds a record; and that
    lookup finds one exactly when the mapping has a record whose
    [username] is that given name. *)
Theorem C2_duplicate_username `{Jsonpickle} (user : User) (update : bool)
    (st st1 : state) :
  reload update st = Ret tt st1 ->
  ((exists st', add_user user update st = Ret FAIL_USER st')
   <-> get_user_by_cpf (User.cpf user) false st1 = Ret None st1
       /\ exists found,
            get_user_by_username (User.nome user) false st1
            = Ret (Some found) st1)
  /\ ((exists found,
          get_user_by_username (User.nome user) false st1
          = Ret (Some found) st1)
      <-> exists key val,
            In (key, val) (db (self st1))
            /\ User.username val = User.nome user).
Proof.
  intros Hre. split; [|apply get_user_by_username_finds].
  rewrite add_user_unfold, Hre, get_user_by_cpf_held,
    get_user_by_username_held.
  destruct (dict_get (User.cpf user) (db (self st1))) as [dup|]; simpl.
  - split; [intros [st' [=]] | intros [[=] _]].
  - destruct (first_value _ (db (self st1))) as [found|]; simpl.
    + split; [eauto | intros _; eauto].
    + split; [intros [st' [=]] | intros [_ [found [=]]]].
Qed.

Lemma C2_duplicate_username_witness :
  @reload json true st_bob = Ret tt st_bob
  /\ ((exists st', @add_user json eva true st_bob = Ret FAIL_USER st')
      <-> @get_user_by_cpf json (User.cpf eva) false st_bob = Ret None st_bob
          /\ exists found,
               @get_user_by_username json (User.nome eva) false st_bob
               = Ret (Some found) st_bob)
  /\ ((exists found,
          @get_user_by_username json (User.nome eva) false st_bob
          = Ret (Some found) st_bob)
      <-> exists key val,
            In (key, val) (db (self st_bob))
            /\ User.username val = User.nome eva).
Proof.
  assert (Hre : @reload json true st_bob = Ret tt st_bob)
    by (vm_compute; reflexivity).
  exact (conj Hre (@C2_duplicate_username json eva true st_bob st_bob Hre)).
Defined.

(** Claim C3 as stated fails on the order of the pair: with no duplicate,
    [add_user] returns [(True, "SUCCESS")], never [("SUCCESS", True)]. *)
Lemma C3_counterexample :
  dict_get (User.cpf ana) (db (self st_new)) = None
  /\ first_value (fun val => String.eqb (User.username val) (User.nome ana))
       (db (self st_new)) = None
  /\ (exists st', @add_user json ana true st_new
                  = Ret (PyBool true, PyStr "SUCCESS") st')
  /\ ~ exists st', @add_user json ana true st_new
                   = Ret (PyStr "SUCCESS", PyBool true) st'.
Proof.
  split; [reflexivity|]. split; [reflexivity|]. split.
  - eexists. vm_compute. reflexivity.
  - intros [st' Hst']. vm_compute in Hst'. discriminate.
Qed.

(** Claim C3, amended. When, after the optional reload, the mapping has
    no record under the national identifier nor one whose username is the
    given name of the new record, [add_user] returns [(True, "SUCCESS")];
    the record is inserted, last, under its national identifier, and the
    file holds the serialization of the whole new mapping. *)
Theorem C3_add_user_success `{Jsonpickle} (user : User) (update : bool)
    (st st1 : state) :
  reload update st = Ret tt st1 ->
  dict_get (User.cpf user) (db (self st1)) = None ->
  first_value (fun val => String.eqb (User.username val) (User.nome user))
    (db (self st1)) = None ->
  add_user user update st
  = Ret (PyBool true, PyStr "SUCCESS") (inserted user st1)
  /\ db (self (inserted user st1))
     = (db (self st1) ++ [(User.cpf user, user)])%list
  /\ dict_get (User.cpf user) (db (self (inserted user st1))) = Some user
  /\ disk (inserted user st1)
     = <[file_path (self st1) := encode (db (self (inserted user st1)))]>
         (disk st1).
Proof.
  intros Hre Hcpf Hnome.
  rewrite add_user_unfold, Hre, Hcpf, Hnome. simpl.
  split; [reflexivity|]. split; [now apply dict_set_fresh|].
  split; [apply dict_get_set_eq | reflexivity].
Qed.

Lemma C3_add_user_success_witness :
  @reload json true st_bob = Ret tt st_bob
  /\ dict_get (User.cpf ivo) (db (self st_bob)) = None
  /\ first_value (fun val => String.eqb (User.username val) (User.nome ivo))
       (db (self st_bob)) = None
  /\ @add_user json ivo true st_bob
     = Ret (PyBool true, PyStr "SUCCESS") (@inserted json ivo st_bob)
  /\ db (self (@inserted json ivo st_bob))
     = (db (self st_bob) ++ [(User.cpf ivo, ivo)])%list
  /\ dict_get (User.cpf ivo) (db (self (@inserted json ivo st_bob)))
     = Some ivo
  /\ disk (@inserted json ivo st_bob)
     = <[file_path (self st_bob) :=
           @encode json (db (self (@inserted json ivo st_bob)))]>
         (disk st_bob).
Proof.
  assert (Hre : @reload json true st_bob = Ret tt st_bob)
    by (vm_compute; reflexivity).
  assert (Hcpf : dict_get (User.cpf ivo) (db (self st_bob)) = None)
    by reflexivity.
  assert (Hnome : first_value
                    (fun val => String.eqb (User.username val) (User.nome ivo))
                    (db (self st_bob)) = None) by reflexivity.
  exact (conj Hre (conj Hcpf (conj Hnome
           (@C3_add_user_success json ivo true st_bob st_bob Hre Hcpf Hnome)))).
Defined.



(** Claim C8 as stated fails: on a file whose content is empty, which no
    decoder accepts, [try_read_from_file] raises the decoder's error. *)
Lemma C8_counterexample :
  disk st_emptied !! file_path (self st_emptied) = Some ""
  /\ @decode json "" = DecodeError
  /\ @try_read_from_file json st_emptied = Raise JSONDecodeError st_emptied
  /\ ~ exists st', @try_read_from_file json st_emptied = Ret tt st'.
Proof.
  split; [reflexivity|]. split; [reflexivity|]. split; [reflexivity|].
  intros [st' Hst']. discriminate.
Qed.

(** Claim C8, amended. [try_read_from_file] never changes the mapping on
    bad input. Without a file it writes the serialization of the mapping
    it holds to a new file and keeps the mapping; on a content that
    decodes to something else than a [dict] it returns and changes
    nothing; on a content the decoder rejects, the decoder's error leaves
    the method and nothing is changed. *)
Theorem C8_try_read_from_file `{Jsonpickle} (st : state) :
  (disk st !! file_path (self st) = None ->
   try_read_from_file st = Ret tt (persisted st)
   /\ db (self (persisted st)) = db (self st)
   /\ disk (persisted st)
      = <[file_path (self st) := encode (db (self st))]> (disk st))
  /\ (forall objetos,
        disk st !! file_path (self st) = Some objetos ->
        decode objetos = DecodedOther ->
        try_read_from_file st = Ret tt st)
  /\ (forall objetos,
        disk st !! file_path (self st) = Some objetos ->
        decode objetos = DecodeError ->
        try_read_from_file st = Raise JSONDecodeError st).
Proof.
  unfold try_read_from_file. split; [|split].
  - intros Hfile. now rewrite Hfile.
  - intros objetos Hfile Hdec. now rewrite Hfile, Hdec.
  - intros objetos Hfile Hdec. now rewrite Hfile, Hdec.
Qed.

Lemma C8_try_read_from_file_witness :
  (disk st_deleted !! file_path (self st_deleted) = None
   /\ @try_read_from_file json st_deleted = Ret tt (@persisted json st_deleted)
   /\ db (self (@persisted json st_deleted)) = db (self st_deleted)
   /\ disk (@persisted json st_deleted)
      = <[file_path (self st_deleted) := @encode json (db (self st_deleted))]>
          (disk st_deleted))
  /\ (disk st_array !! file_path (self st_array) = Some "[]"
      /\ @decode json "[]" = DecodedOther
      /\ @try_read_from_file json st_array = Ret tt st_array)
  /\ (disk st_emptied !! file_path (self st_emptied) = Some ""
      /\ @decode json "" = DecodeError
      /\ @try_read_from_file json st_emptied
         = Raise JSONDecodeError st_emptied).
Proof.
  assert (H1 : disk st_deleted !! file_path (self st_deleted) = None)
    by reflexivity.
  assert (H2 : disk st_array !! file_path (self st_array) = Some "[]")
    by reflexivity.
  assert (H3 : @decode json "[]" = DecodedOther) by reflexivity.
  assert (H4 : disk st_emptied !! file_path (self st_emptied) = Some "")
    by reflexivity.
  assert (H5 : @decode json "" = DecodeError) by reflexivity.
  split; [|split].
  - exact (conj H1 (proj1 (@C8_try_read_from_file json st_deleted) H1)).
  - refine (conj H2 (conj H3 _)).
    exact (proj1 (proj2 (@C8_try_read_from_file json st_array)) _ H2 H3).
  - refine (conj H4 (conj H5 _)).
    exact (proj2 (proj2 (@C8_try_read_from_file json st_emptied)) _ H4 H5).
Defined.

(** Claim C9 as stated fails on the content of the file. An object whose
    mapping is empty while the file holds Ana, asked without reload to
    remove an identifier it does not have, overwrites the file with the
    empty mapping; and with reload, on a file that holds an empty array,
    the array is overwritten with the mapping held. *)
Lemma C9_counterexample :
  (~ In "000.000.000-00" (map fst (db (self st_stale)))
   /\ exists st',
        @remove_user_by_cpf json "000.000.000-00" false st_stale
        = Ret None st'
        /\ db (self st') = db (self st_stale)
        /\ disk st_stale !! users_json
           = Some (@encode json [(User.cpf ana, ana)])
        /\ disk st' !! users_json = Some "{}"
        /\ disk st' !! users_json <> disk st_stale !! users_json)
  /\ (~ In "000.000.000-00" (map fst (db (self st_array)))
      /\ exists st',
           @remove_user_by_cpf json "000.000.000-00" true st_array
           = Ret None st'
           /\ db (self st') = db (self st_array)
           /\ disk st_array !! users_json = Some "[]"
           /\ disk st' !! users_json
              = Some (@encode json [(User.cpf ana, ana)])
           /\ disk st' !! users_json <> disk st_array !! users_json).
Proof.
  split.
  - split; [intros []|].
    eexists. split; [vm_compute; reflexivity|].
    split; [reflexivity|]. split; [reflexivity|].
    split; [reflexivity|]. vm_compute. discriminate.
  - split; [simpl; intros [Heq|[]]; discriminate|].
    eexists. split; [vm_compute; reflexivity|].
    split; [reflexivity|]. split; [reflexivity|].
    split; [vm_compute; reflexivity|]. vm_compute. discriminate.
Qed.

(** Claim C9, amended. For a national identifier that the mapping held
    after the optional reload does not have, [remove_user_by_cpf] returns
    [None], leaves the mapping as it is and still writes the file: the
    file holds the serialization of the unchanged mapping, so that a file
    that held it already is unchanged. *)
Theorem C9_remove_absent `{Jsonpickle} (cpf : string) (update : bool)
    (st st1 : state) :
  reload update st = Ret tt st1 ->
  ~ In cpf (map fst (db (self st1))) ->
  remove_user_by_cpf cpf update st = Ret None (persisted st1)
  /\ db (self (persisted st1)) = db (self st1)
  /\ disk (persisted st1)
     = <[file_path (self st1) := encode (db (self st1))]> (disk st1)
  /\ (disk st1 !! file_path (self st1) = Some (encode (db (self st1))) ->
      persisted st1 = st1).
Proof.
  intros Hre Habsent. apply dict_get_None in Habsent.
  rewrite remove_user_by_cpf_unfold, Hre, (dict_pop_absent _ _ Habsent).
  simpl. rewrite state_eta.
  split; [reflexivity|]. split; [reflexivity|]. split; [reflexivity|].
  intros Hfile. unfold persisted. rewrite (insert_id _ _ _ Hfile).
  now destruct st1.
Qed.

Lemma C9_remove_absent_witness :
  @reload json true st_bob = Ret tt st_bob
  /\ ~ In (User.cpf ana) (map fst (db (self st_bob)))
  /\ @remove_user_by_cpf json (User.cpf ana) true st_bob
     = Ret None (@persisted json st_bob)
  /\ db (self (@persisted json st_bob)) = db (self st_bob)
  /\ disk (@persisted json st_bob)
     = <[file_path (self st_bob) := @encode json (db (self st_bob))]>
         (disk st_bob)
  /\ (disk st_bob !! file_path (self st_bob)
      = Some (@encode json (db (self st_bob))) ->
      @persisted json st_bob = st_bob).
Proof.
  assert (Hre : @reload json true st_bob = Ret tt st_bob)
    by (vm_compute; reflexivity).
  assert (Habsent : ~ In (User.cpf ana) (map fst (db (self st_bob)))).
  { simpl. intros [Heq|[]]. discriminate. }
  exact (conj Hre (conj Habsent
           (@C9_remove_absent json (User.cpf ana) true st_bob st_bob
              Hre Habsent))).
Defined.

(** Claim C10 as stated fails on the file. Ana is registered and the file
    has been deleted: [add_user] with Ana fails with ["CPF"], and the
    reload it starts with has written the file. *)
Lemma C10_counterexample :
  exists st',
    @add_user json ana true st_deleted = Ret FAIL_CPF st'
    /\ db (self st') = db (self st_deleted)
    /\ disk st_deleted !! file_path (self st_deleted) = None
    /\ disk st' !! file_path (self st_deleted)
       = Some (@encode json (db (self st_deleted)))
    /\ disk st' <> disk st_deleted.
Proof.
  exists (@persisted json st_deleted).
  split; [vm_compute; reflexivity|]. split; [reflexivity|].
  split; [reflexivity|]. split; [vm_compute; reflexivity|].
  intros Heq.
  apply (f_equal (fun fs : gmap string string => fs !! users_json)) in Heq.
  vm_compute in Heq. discriminate.
Qed.

(** Claim C10, amended. When [add_user] returns [(False, "CPF")] or
    [(False, "USER")], the state it leaves is the state the optional
    reload left: nothing is inserted and nothing is written after the
    reload. Without reload the state is unchanged; a file that exists is
    left as it is; a missing file is created by the reload with the
    serialization of the mapping held. *)
Theorem C10_failure_leaves_state `{Jsonpickle} (user : User) (update : bool)
    (st st' : state) (res : pyval * pyval) :
  add_user user update st = Ret res st' ->
  res = FAIL_CPF \/ res = FAIL_USER ->
  reload update st = Ret tt st'
  /\ (update = false -> st' = st)
  /\ (forall objetos,
        disk st !! file_path (self st) = Some objetos -> disk st' = disk st)
  /\ (update = true -> disk st !! file_path (self st) = None ->
      st' = persisted st).
Proof.
  intros Hadd Hres. rewrite add_user_unfold in Hadd.
  destruct (reload update st) as [[] st1|] eqn:Hre; [|easy].
  assert (Hst : st1 = st').
  { destruct (truthy (dict_get _ _)); [congruence|].
    destruct (truthy (first_value _ _)); [congruence|].
    injection Hadd as <- _. now destruct Hres. }
  subst st1. split; [reflexivity|].
  destruct update; simpl in Hre.
  - split; [easy|]. unfold try_read_from_file in Hre. split.
    + intros objetos Hfile. rewrite Hfile in Hre.
      destruct (decode objetos); [easy| |]; now injection Hre as <-.
    + intros _ Hfile. rewrite Hfile in Hre. now injection Hre as <-.
  - injection Hre as <-. split; [easy|]. split; [easy|easy].
Qed.

Lemma C10_failure_leaves_state_witness :
  @add_user json eva true st_bob = Ret FAIL_USER st_bob
  /\ (FAIL_USER = FAIL_CPF \/ FAIL_USER = FAIL_USER)
  /\ @reload json true st_bob = Ret tt st_bob
  /\ (true = false -> st_bob = st_bob)
  /\ (forall objetos,
        disk st_bob !! file_path (self st_bob) = Some objetos ->
        disk st_bob = disk st_bob)
  /\ (true = true -> disk st_bob !! file_path (self st_bob) = None ->
      st_bob = @persisted json st_bob).
Proof.
  assert (Hadd : @add_user json eva true st_bob = Ret FAIL_USER st_bob)
    by (vm_compute; reflexivity).
  assert (Hres : FAIL_USER = FAIL_CPF \/ FAIL_USER = FAIL_USER)
    by (right; reflexivity).
  exact (conj Hadd (conj Hres
           (@C10_failure_leaves_state json eva true st_bob st_bob FAIL_USER
              Hadd Hres))).
Defined.

(** ** Further properties of the code *)

(** *** The patterns of [User.__new__] *)

Lemma nl_nil : nl "" = String LF "".
Proof. reflexivity. Qed.

Lemma nl_cons (c : ascii) (s : string) : nl (String c s) = String c (nl s).
Proof. reflexivity. Qed.

Lemma nl_not_nil (s : string) : nl s <> "".
Proof. destruct s; [rewrite nl_nil | rewrite nl_cons]; discriminate. Qed.

Lemma fits_then_LF (t : list (ascii -> bool)) (s : string) :
  fits (t ++ [is_LF]) s = true <-> exists s', s = nl s' /\ fits t s' = true.
Proof.
  revert s. induction t as [|f t IH]; intros s.
  - change (([] ++ [is_LF])%list) with [is_LF]. split.
    + destruct s as [|c [|c' s]]; cbn [fits]; try easy.
      * rewrite andb_true_r. intros Hc. apply Ascii.eqb_eq in Hc. subst c.
        now exists "".
      * now rewrite andb_false_r.
    + intros (s' & -> & Hs'). destruct s' as [|c s']; [reflexivity|easy].
  - change (((f :: t) ++ [is_LF])%list) with (f :: (t ++ [is_LF])%list).
    split.
    + destruct s as [|c s]; cbn [fits]; [easy|].
      rewrite andb_true_iff, IH. intros (Hf & s' & -> & Hs').
      exists (String c s'). split; [apply nl_cons|].
      cbn [fits]. now rewrite Hf.
    + intros (s' & -> & Hs'). destruct s' as [|c s']; [easy|].
      rewrite nl_cons. cbn [fits] in *.
      apply andb_true_iff in Hs' as [Hf Hs'].
      rewrite Hf. apply IH. eauto.
Qed.

(** Property X1. [cpf_pattern.match] accepts exactly the strings of the
    form NNN.NNN.NNN-NN and those strings followed by one line feed; on
    any other national identifier [User.__new__] returns [None], and on
    an accepted one it goes on to the other checks, whose result does not
    depend on the identifier. *)
Theorem cpf_pattern_accepts (s : string) :
  (re_match cpf_pattern s = true
   <-> fits NNN_NNN_NNN_NN s = true
       \/ exists s', s = nl s' /\ fits NNN_NNN_NNN_NN s' = true)
  /\ forall username nome sobrenome data email senha endereço CEP,
       User_new username nome sobrenome s data email senha endereço CEP
       = if fits_line NNN_NNN_NNN_NN s
         then User_new username nome sobrenome "123.456.789-09" data email
                senha endereço CEP
         else None.
Proof.
  split.
  - rewrite cpf_pattern_shape, orb_true_iff, fits_then_LF. reflexivity.
  - intros username nome sobrenome data email senha endereço CEP.
    unfold User_new. rewrite (cpf_pattern_shape s).
    change (spec_cpf s || fits (NNN_NNN_NNN_NN ++ [is_LF]) s)
      with (fits_line NNN_NNN_NNN_NN s).
    destruct (fits_line NNN_NNN_NNN_NN s); reflexivity.
Qed.

Lemma cep_pattern_eat (s : string) :
  re_match cep_pattern s
  = eat (repeat (mem d09) 5 ++ mem (Chr "-") :: repeat (mem d09) 3 ++ [])
      at_end s.
Proof.
  unfold re_match, cep_pattern, exactly. cbn [seq].
  change (run (Seq Bol ?r) true s ?k) with (run r true s k).
  repeat first [ apply run_seq_rep_eat; intros ? ?
               | apply run_seq_one_eat; intros ? ?
               | apply run_eol_eat ].
Qed.

Lemma cep_pattern_shape (s : string) :
  re_match cep_pattern s = fits_line NNNNN_NNN s.
Proof.
  rewrite cep_pattern_eat, eat_at_end. unfold fits_line.
  f_equal; apply fits_ext; cbn [repeat app NNNNN_NNN];
    repeat constructor; try (intros c; apply orb_false_r).
Qed.

Lemma fits_line_spec (t : list (ascii -> bool)) (s : string) :
  fits_line t s = true
  <-> fits t s = true \/ exists s', s = nl s' /\ fits t s' = true.
Proof. unfold fits_line. now rewrite orb_true_iff, fits_then_LF. Qed.

(** Property X2. A postal code given to [User(...)] is accepted exactly
    when it has the form NNNNN-NNN, with or without one line feed after
    it: then the checks go on as for an omitted postal code, which is
    always accepted; any other postal code gives [None]. *)
Theorem User_new_CEP (username nome sobrenome cpf : string) (data : date)
    (email senha : string) (endereço : option string) (cep : string) :
  User_new username nome sobrenome cpf data email senha endereço (Some cep)
  = if fits_line NNNNN_NNN cep
    then User_new username nome sobrenome cpf data email senha endereço None
    else None.
Proof.
  unfold User_new. rewrite <- cep_pattern_shape.
  destruct (re_match cep_pattern cep); simpl; [reflexivity|].
  now destruct (negb (re_match cpf_pattern cpf)).
Qed.

(** A repetition without upper bound takes a prefix of the set, at least
    [lo] long, and leaves the rest to what follows. *)
Lemma rep_unbounded (k : bool -> string -> bool) (cs : cset) (s : string) :
  forall (lo : nat) (start : bool),
    rep k cs lo None start s = true
    <-> exists p r,
          s = p ++ r /\ str_all (mem cs) p = true /\ lo <= String.length p
          /\ k (match p with EmptyString => start | _ => false end) r = true.
Proof.
  induction s as [|c s IH]; intros lo start.
  - cbn [rep]. split.
    + destruct lo; [|easy]. intros Hk. exists "", "". repeat split; auto.
    + intros (p & r & Heq & _ & Hlo & Hk).
      destruct p as [|c p]; [|easy]. destruct r; [|easy].
      now destruct lo; [|simpl in Hlo; lia].
  - cbn [rep more]. rewrite andb_true_r. split.
    + destruct (mem cs c) eqn:Hc.
      * intros Hor. apply orb_true_iff in Hor as [Hrep|Hstop].
        -- apply IH in Hrep as (p & r & -> & Hall & Hlo & Hk).
           exists (String c p), r. repeat split.
           ++ cbn [str_all]. now rewrite Hc.
           ++ simpl. lia.
           ++ now destruct p.
        -- destruct lo; [|easy]. exists "", (String c s). repeat split; auto.
      * destruct lo; [|easy]. intros Hk.
        exists "", (String c s). repeat split; auto.
    + intros (p & r & Heq & Hall & Hlo & Hk). destruct p as [|c' p].
      * change ("" ++ r) with r in Heq. subst r.
        destruct lo; [|simpl in Hlo; lia].
        destruct (mem cs c); [now rewrite Hk, orb_true_r | exact Hk].
      * change (String c' p ++ r) with (String c' (p ++ r)) in Heq.
        injection Heq as <- ->. cbn [str_all] in Hall.
        apply andb_true_iff in Hall as [Hc Hall]. rewrite Hc.
        apply orb_true_iff. left. apply IH. exists p, r.
        repeat split; auto; [simpl in Hlo; lia | now destruct p].
Qed.

Lemma mem_word_dot (c : ascii) : mem word_dot c = is_word_or_dot c.
Proof. unfold is_word_or_dot, is_char. simpl. now rewrite orb_false_r. Qed.

Lemma str_all_ext (f g : ascii -> bool) (s : string) :
  (forall c, f c = g c) -> str_all f s = str_all g s.
Proof.
  intros Hfg. induction s as [|c s IH]; simpl; [easy|]. now rewrite Hfg, IH.
Qed.

Lemma at_end_iff (s : string) :
  at_end s = true <-> s = "" \/ s = String LF "".
Proof.
  destruct s as [|c [|c' s]]; simpl.
  - split; auto.
  - split.
    + intros Hc. apply Ascii.eqb_eq in Hc. subst c. now right.
    + intros [|[= ->]]; easy.
  - split; [easy | intros [|]; easy].
Qed.

Lemma append_cons (c : ascii) (s r : string) :
  String c s ++ r = String c (s ++ r).
Proof. reflexivity. Qed.

Lemma append_nil_r (s : string) : s ++ "" = s.
Proof.
  induction s as [|c s IH]; [reflexivity|]. now rewrite append_cons, IH.
Qed.

Lemma append_assoc (s r t : string) : (s ++ r) ++ t = s ++ (r ++ t).
Proof.
  induction s as [|c s IH]; [reflexivity|]. now rewrite !append_cons, IH.
Qed.

(** Property X3. [email_pattern.match] accepts exactly the strings made
    of a local part, one ["@"] and a domain, both non-empty and made of
    [\w] characters and dots, with or without one line feed at the
    end. *)
Theorem email_pattern_accepts (s : string) :
  re_match email_pattern s = true
  <-> exists local domain,
        local <> "" /\ domain <> ""
        /\ str_all is_word_or_dot local = true
        /\ str_all is_word_or_dot domain = true
        /\ (s = local ++ "@" ++ domain \/ s = nl (local ++ "@" ++ domain)).
Proof.
  unfold re_match, email_pattern, plus. cbn [seq].
  change (run (Seq Bol ?r) true s ?k) with (run r true s k).
  cbn [run]. rewrite rep_unbounded. split.
  - intros (p & r & -> & Hp & Hlen & Hk).
    destruct r as [|c r]; [easy|].
    apply andb_true_iff in Hk as [Hc Hk]. apply Ascii.eqb_eq in Hc. subst c.
    apply rep_unbounded in Hk as (p' & r' & -> & Hp' & Hlen' & Hend).
    rewrite andb_true_r in Hend. apply at_end_iff in Hend.
    exists p, p'. rewrite <- (str_all_ext _ _ p mem_word_dot),
      <- (str_all_ext _ _ p' mem_word_dot).
    split; [now destruct p|]. split; [now destruct p'|].
    split; [easy|]. split; [easy|].
    destruct Hend as [->| ->].
    + left. now rewrite append_nil_r.
    + right. unfold nl. now rewrite append_assoc.
  - intros (l & d & Hl & Hd & Hal & Had & Hs).
    rewrite (str_all_ext _ _ l (fun c => eq_sym (mem_word_dot c))) in Hal.
    rewrite (str_all_ext _ _ d (fun c => eq_sym (mem_word_dot c))) in Had.
    exists l. destruct Hs as [-> | ->].
    + exists ("@" ++ d). split; [reflexivity|]. split; [easy|].
      split; [destruct l; [easy | simpl; lia]|].
      change ("@" ++ d) with (String "@" d). cbn [mem]. 
      rewrite Ascii.eqb_refl. cbn [andb]. apply rep_unbounded.
      exists d, "". split; [now rewrite append_nil_r|]. split; [easy|].
      split; [destruct d; [easy | simpl; lia]|]. reflexivity.
    + exists (nl ("@" ++ d)). split; [apply append_assoc|].
      split; [easy|]. split; [destruct l; [easy | simpl; lia]|].
      change (nl ("@" ++ d)) with (String "@" (nl d)). cbn [mem].
      rewrite Ascii.eqb_refl. cbn [andb]. apply rep_unbounded.
      exists d, (String LF ""). split; [reflexivity|]. split; [easy|].
      split; [destruct d; [easy | simpl; lia]|]. reflexivity.
Qed.

(** Property X4. [senha_pattern.match] accepts a password exactly when
    the part before its first line feed has at least 8 characters, a
    digit and a letter. *)
Theorem senha_pattern_accepts (s : string) :
  re_match senha_pattern s = true
  <-> 8 <= String.length (first_line s)
      /\ str_any is_digit (first_line s) = true
      /\ str_any is_letter (first_line s) = true.
Proof.
  rewrite senha_pattern_first_line. unfold spec_senha.
  rewrite !andb_true_iff, Nat.leb_le. tauto.
Qed.

(** *** The mapping and the file *)

Lemma dict_get_set_ne (k k' : string) (v : User) (d : dict) :
  k' <> k -> dict_get k' (dict_set k v d) = dict_get k' d.
Proof.
  intros Hne. induction d as [|[k0 v0] d IH]; simpl.
  - destruct (String.eqb_spec k k'); [congruence | reflexivity].
  - destruct (String.eqb_spec k0 k) as [->|Hk0]; simpl.
    + destruct (String.eqb_spec k k'); [congruence | reflexivity].
    + now rewrite IH.
Qed.

Lemma dict_get_pop_ne (k k' : string) (d : dict) :
  k' <> k -> dict_get k' (snd (dict_pop k d)) = dict_get k' d.
Proof.
  intros Hne. induction d as [|[k0 v0] d IH]; simpl; [reflexivity|].
  destruct (String.eqb_spec k0 k) as [->|Hk0]; simpl.
  - destruct (String.eqb_spec k k'); [congruence | reflexivity].
  - destruct (dict_pop k d) as [r d'] eqn:Hpop. simpl in *. now rewrite IH.
Qed.

Lemma dict_get_pop_eq (k : string) (d : dict) :
  unique_keys d = true -> dict_get k (snd (dict_pop k d)) = None.
Proof.
  induction d as [|[k0 v0] d IH]; simpl; [reflexivity|].
  intros Hu. apply andb_true_iff in Hu as [Hk0 Hu].
  destruct (String.eqb_spec k0 k) as [->|Hne]; simpl.
  - now destruct (dict_get k d).
  - destruct (dict_pop k d) as [r d'] eqn:Hpop. simpl in *.
    destruct (String.eqb_spec k0 k); [congruence | auto].
Qed.

Lemma unique_keys_set (k : string) (v : User) (d : dict) :
  unique_keys d = true -> unique_keys (dict_set k v d) = true.
Proof.
  induction d as [|[k0 v0] d IH]; simpl; [reflexivity|].
  intros Hu. apply andb_true_iff in Hu as [Hk0 Hu].
  destruct (String.eqb_spec k0 k) as [->|Hne]; simpl.
  - now rewrite Hk0, Hu.
  - rewrite dict_get_set_ne by easy. now rewrite Hk0, IH.
Qed.

Lemma unique_keys_pop (k : string) (d : dict) :
  unique_keys d = true -> unique_keys (snd (dict_pop k d)) = true.
Proof.
  induction d as [|[k0 v0] d IH]; simpl; [reflexivity|].
  intros Hu. apply andb_true_iff in Hu as [Hk0 Hu].
  destruct (String.eqb_spec k0 k) as [->|Hne]; simpl; [easy|].
  pose proof (dict_get_pop_ne k k0 d Hne) as Hget.
  destruct (dict_pop k d) as [r d'] eqn:Hpop. simpl in *.
  now rewrite Hget, Hk0, IH.
Qed.

Lemma keyed_by_cpf_set (v : User) (d : dict) :
  keyed_by_cpf d = true -> keyed_by_cpf (dict_set (User.cpf v) v d) = true.
Proof.
  induction d as [|[k0 v0] d IH]; simpl.
  - now rewrite String.eqb_refl.
  - intros Hk. apply andb_true_iff in Hk as [Hk0 Hk].
    destruct (String.eqb k0 (User.cpf v)) eqn:Heq; simpl.
    + now rewrite Heq, Hk.
    + now rewrite Hk0, IH.
Qed.

Lemma keyed_by_cpf_pop (k : string) (d : dict) :
  keyed_by_cpf d = true -> keyed_by_cpf (snd (dict_pop k d)) = true.
Proof.
  induction d as [|[k0 v0] d IH]; simpl; [reflexivity|].
  intros Hk. apply andb_true_iff in Hk as [Hk0 Hk].
  destruct (String.eqb k0 k); simpl; [easy|].
  destruct (dict_pop k d) as [r d'] eqn:Hpop. simpl in *.
  now rewrite Hk0, IH.
Qed.

Lemma keyed_by_cpf_get (k : string) (u : User) (d : dict) :
  keyed_by_cpf d = true -> dict_get k d = Some u -> User.cpf u = k.
Proof.
  induction d as [|[k0 v0] d IH]; simpl; [easy|].
  intros Hk. apply andb_true_iff in Hk as [Hk0 Hk].
  destruct (String.eqb_spec k0 k) as [->|Hne]; [|auto].
  intros [= ->]. simpl in Hk0. now apply String.eqb_eq in Hk0.
Qed.

Lemma dict_pop_split (k : string) (u : User) (d : dict) :
  dict_get k d = Some u ->
  exists d1 d2,
    d = (d1 ++ (k, u) :: d2)%list /\ dict_get k d1 = None
    /\ dict_pop k d = (Some u, (d1 ++ d2)%list).
Proof.
  induction d as [|[k0 v0] d IH]; simpl; [easy|].
  destruct (String.eqb_spec k0 k) as [->|Hne].
  - intros [= ->]. now exists [], d.
  - intros Hget. destruct (IH Hget) as (d1 & d2 & -> & Hd1 & Hpop).
    exists ((k0, v0) :: d1), d2. simpl. rewrite Hpop.
    destruct (String.eqb_spec k0 k); [congruence | easy].
Qed.

Lemma dict_pop_last (k : string) (v : User) (d : dict) :
  dict_get k d = None -> dict_pop k (d ++ [(k, v)]) = (Some v, d).
Proof.
  induction d as [|[k0 v0] d IH]; simpl.
  - now rewrite String.eqb_refl.
  - destruct (String.eqb k0 k); [easy|]. intros Hd. now rewrite IH.
Qed.

Lemma first_value_spec (p : User -> bool) (d : dict) :
  match first_value p d with
  | Some u =>
      exists d1 k d2,
        d = (d1 ++ (k, u) :: d2)%list /\ p u = true
        /\ forall k' v', In (k', v') d1 -> p v' = false
  | None => forall k v, In (k, v) d -> p v = false
  end.
Proof.
  induction d as [|[k0 v0] d IH]; simpl; [easy|].
  destruct (p v0) eqn:Hv0.
  - exists [], k0, d. easy.
  - destruct (first_value p d) as [u|].
    + destruct IH as (d1 & k & d2 & -> & Hu & Hd1).
      exists ((k0, v0) :: d1), k, d2. repeat split; [easy|].
      intros k' v' [[= <- <-]|Hin]; eauto.
    + intros k v [[= <- <-]|Hin]; eauto.
Qed.

Lemma first_value_app (p : User -> bool) (d d' : dict) (u : User) :
  first_value p d = Some u -> first_value p (d ++ d') = Some u.
Proof.
  induction d as [|[k0 v0] d IH]; simpl; [easy|]. now destruct (p v0).
Qed.

Section StoreExtras.
Context `{Jsonpickle}.

Lemma reload_keeps_path (update : bool) (st st1 : state) :
  reload update st = Ret tt st1 ->
  file_path (self st1) = file_path (self st).
Proof.
  destruct update; simpl; [|now intros [= <-]].
  unfold try_read_from_file.
  destruct (disk st !! file_path (self st)) as [objetos|].
  - destruct (decode objetos); [easy| |]; now intros [= <-].
  - now intros [= <-].
Qed.

Lemma reload_persisted (update : bool) (st : state) :
  round_trips (db (self st)) ->
  reload update (persisted st) = Ret tt (persisted st).
Proof.
  intros Hrt. destruct update; [now apply try_read_persisted | reflexivity].
Qed.

Lemma reload_malformed (st : state) :
  malformed st -> reload true st = Raise JSONDecodeError st.
Proof.
  intros (objetos & Hfile & Hdec). simpl. unfold try_read_from_file.
  now rewrite Hfile, Hdec.
Qed.

Lemma inserted_persisted (user : User) (st : state) :
  inserted user st
  = persisted (holding (dict_set (User.cpf user) user (db (self st))) st).
Proof. reflexivity. Qed.

Lemma add_user_success (user : User) (update : bool) (st st' : state) :
  add_user user update st = Ret SUCCESS st' ->
  exists st1,
    reload update st = Ret tt st1
    /\ dict_get (User.cpf user) (db (self st1)) = None
    /\ st' = inserted user st1.
Proof.
  rewrite add_user_unfold.
  destruct (reload update st) as [[] st1|]; [|easy].
  destruct (dict_get (User.cpf user) (db (self st1))) eqn:Hget; simpl;
    [easy|].
  destruct (truthy (first_value _ _)); [easy|]. intros [= <-].
  now exists st1.
Qed.

(** Property X5. A mapping in which every record is under its own
    national identifier and no key comes twice answers a lookup by
    national identifier with a record of that identifier, and is still
    such a mapping after [add_user] and after [remove_user_by_cpf],
    whatever they return. *)
Theorem store_stays_indexed (st1 : state) :
  keyed_by_cpf (db (self st1)) = true ->
  unique_keys (db (self st1)) = true ->
  (forall c u, dict_get c (db (self st1)) = Some u -> User.cpf u = c)
  /\ (forall user update st res st',
        reload update st = Ret tt st1 ->
        add_user user update st = Ret res st' ->
        keyed_by_cpf (db (self st')) = true
        /\ unique_keys (db (self st')) = true)
  /\ (forall c update st r st',
        reload update st = Ret tt st1 ->
        remove_user_by_cpf c update st = Ret r st' ->
        keyed_by_cpf (db (self st')) = true
        /\ unique_keys (db (self st')) = true).
Proof.
  intros Hk Hu. split; [|split].
  - intros c u. now apply keyed_by_cpf_get.
  - intros user update st res st' Hre. rewrite add_user_unfold, Hre.
    destruct (truthy (dict_get _ _)); [now intros [= _ <-]|].
    destruct (truthy (first_value _ _)); [now intros [= _ <-]|].
    intros [= _ <-]. simpl.
    split; [now apply keyed_by_cpf_set | now apply unique_keys_set].
  - intros c update st r st' Hre. rewrite remove_user_by_cpf_unfold, Hre.
    intros [= _ <-]. simpl.
    split; [now apply keyed_by_cpf_pop | now apply unique_keys_pop].
Qed.

(** Property X6. For a national identifier that the mapping held after
    the optional reload has, [remove_user_by_cpf] returns its record,
    takes that entry out and leaves the others in their order, and writes
    the new mapping to the file; the identifier is then free and every
    other lookup is as before. *)
Theorem remove_present (c : string) (u : User) (update : bool)
    (st st1 : state) :
  reload update st = Ret tt st1 ->
  unique_keys (db (self st1)) = true ->
  dict_get c (db (self st1)) = Some u ->
  exists d1 d2,
    db (self st1) = (d1 ++ (c, u) :: d2)%list
    /\ remove_user_by_cpf c update st
       = Ret (Some u) (persisted (holding (d1 ++ d2) st1))
    /\ dict_get c (d1 ++ d2) = None
    /\ forall c', c' <> c ->
         dict_get c' (d1 ++ d2) = dict_get c' (db (self st1)).
Proof.
  intros Hre Hu Hget.
  destruct (dict_pop_split c u _ Hget) as (d1 & d2 & Hd & Hd1 & Hpop).
  exists d1, d2. split; [exact Hd|].
  rewrite remove_user_by_cpf_unfold, Hre, Hpop. split; [reflexivity|].
  split.
  - change (d1 ++ d2)%list with (snd (Some u, (d1 ++ d2)%list)).
    rewrite <- Hpop. now apply dict_get_pop_eq.
  - intros c' Hne.
    change (d1 ++ d2)%list with (snd (Some u, (d1 ++ d2)%list)).
    rewrite <- Hpop. now apply dict_get_pop_ne.
Qed.

(** Property X7. After a successful [add_user], [remove_user_by_cpf]
    with the national identifier of the record returns the record and
    gives back the mapping held before the insertion, in memory and in
    the file, when the serializer gives back the mapping written. *)
Theorem add_then_remove (user : User) (u1 u2 : bool) (st st1 st2 : state) :
  reload u1 st = Ret tt st1 ->
  add_user user u1 st = Ret SUCCESS st2 ->
  round_trips (db (self st2)) ->
  remove_user_by_cpf (User.cpf user) u2 st2
  = Ret (Some user) (persisted (holding (db (self st1)) st2)).
Proof.
  intros Hre Hadd Hrt.
  apply add_user_success in Hadd as (st1' & Hre' & Hfree & ->).
  rewrite Hre in Hre'. injection Hre' as <-.
  rewrite remove_user_by_cpf_unfold, inserted_persisted.
  rewrite reload_persisted by exact Hrt.
  rewrite <- inserted_persisted.
  change (db (self (inserted user st1)))
    with (dict_set (User.cpf user) user (db (self st1))).
  rewrite (dict_set_fresh _ _ _ Hfree), (dict_pop_last _ _ _ Hfree).
  reflexivity.
Qed.

(** Property X8. After a successful [add_user], when the serializer gives
    back the mapping written: [get_user_by_cpf] finds the record, with or
    without reload; [get_user_list] returns the former records followed by
    the new one; and any object on the same path, whatever it holds,
    finds the record when it reloads. *)
Theorem added_record_is_found (user : User) (u1 : bool)
    (st st1 st2 : state) :
  reload u1 st = Ret tt st1 ->
  add_user user u1 st = Ret SUCCESS st2 ->
  round_trips (db (self st2)) ->
  (forall u2, get_user_by_cpf (User.cpf user) u2 st2 = Ret (Some user) st2)
  /\ (forall u2,
        get_user_list u2 st2
        = Ret (dict_values (db (self st1)) ++ [user])%list st2)
  /\ (forall d, get_user_by_cpf (User.cpf user) true (holding d st2)
                = Ret (Some user) st2).
Proof.
  intros Hre Hadd Hrt.
  apply add_user_success in Hadd as (st1' & Hre' & Hfree & ->).
  rewrite Hre in Hre'. injection Hre' as <-.
  assert (Hagain : forall u2,
             reload u2 (inserted user st1) = Ret tt (inserted user st1)).
  { intros u2. rewrite inserted_persisted. now apply reload_persisted. }
  assert (Hget : dict_get (User.cpf user) (db (self (inserted user st1)))
                 = Some user) by apply dict_get_set_eq.
  split; [|split].
  - intros u2. unfold get_user_by_cpf, bind. rewrite Hagain. simpl.
    unfold ret. f_equal. apply dict_get_set_eq.
  - intros u2. unfold get_user_list, bind. rewrite Hagain. simpl.
    unfold ret. f_equal. rewrite (dict_set_fresh _ _ _ Hfree).
    unfold dict_values. now rewrite map_app.
  - intros d. unfold get_user_by_cpf, bind, reload, try_read_from_file.
    simpl. rewrite lookup_insert_eq, Hrt. simpl.
    unfold ret. f_equal. apply dict_get_set_eq.
Qed.

(** Property X9. [add_user] does not keep usernames unique: it compares
    the given name of the new record, not its username, with the
    usernames held. A record whose username is already taken is inserted
    when its national identifier and given name are free, and the lookup
    by that username keeps returning the earlier record. *)
Theorem username_not_unique (user other : User) (key : string)
    (update : bool) (st st1 : state) :
  reload update st = Ret tt st1 ->
  In (key, other) (db (self st1)) ->
  User.username other = User.username user ->
  dict_get (User.cpf user) (db (self st1)) = None ->
  first_value (fun val => String.eqb (User.username val) (User.nome user))
    (db (self st1)) = None ->
  add_user user update st = Ret SUCCESS (inserted user st1)
  /\ In (key, other) (db (self (inserted user st1)))
  /\ In (User.cpf user, user) (db (self (inserted user st1)))
  /\ exists first,
       get_user_by_username (User.username user) false st1
       = Ret (Some first) st1
       /\ get_user_by_username (User.username user) false
            (inserted user st1)
          = Ret (Some first) (inserted user st1).
Proof.
  intros Hre Hin Hname Hfree Hnome.
  split; [now rewrite add_user_unfold, Hre, Hfree, Hnome|].
  change (db (self (inserted user st1)))
    with (dict_set (User.cpf user) user (db (self st1))).
  rewrite (dict_set_fresh _ _ _ Hfree).
  split; [apply in_or_app; now left|].
  split; [apply in_or_app; right; now left|].
  rewrite !get_user_by_username_held.
  change (db (self (inserted user st1)))
    with (dict_set (User.cpf user) user (db (self st1))).
  rewrite (dict_set_fresh _ _ _ Hfree).
  destruct (first_value
              (fun val => String.eqb (User.username val) (User.username user))
              (db (self st1))) as [first|] eqn:Hfirst.
  - exists first. split; [reflexivity|].
    now rewrite (first_value_app _ _ _ _ Hfirst).
  - pose proof (first_value_spec
                  (fun val => String.eqb (User.username val)
                                (User.username user))
                  (db (self st1))) as Hspec.
    rewrite Hfirst in Hspec. specialize (Hspec _ _ Hin). simpl in Hspec.
    rewrite Hname, String.eqb_refl in Hspec. discriminate.
Qed.

(** Property X10. [get_user_by_id] and [get_user_by_username] return the
    first record, in insertion order, with the identifier or username
    asked for, and [None] exactly when no record has it. *)
Theorem lookup_first_match (update : bool) (st st1 : state) :
  reload update st = Ret tt st1 ->
  (forall id,
      exists r,
        get_user_by_id id update st = Ret r st1
        /\ match r with
           | Some u =>
               exists d1 k d2,
                 db (self st1) = (d1 ++ (k, u) :: d2)%list
                 /\ User.id u = id
                 /\ forall k' v', In (k', v') d1 -> User.id v' <> id
           | None =>
               forall k v, In (k, v) (db (self st1)) -> User.id v <> id
           end)
  /\ (forall username,
        exists r,
          get_user_by_username username update st = Ret r st1
          /\ match r with
             | Some u =>
                 exists d1 k d2,
                   db (self st1) = (d1 ++ (k, u) :: d2)%list
                   /\ User.username u = username
                   /\ forall k' v',
                        In (k', v') d1 -> User.username v' <> username
             | None =>
                 forall k v,
                   In (k, v) (db (self st1)) -> User.username v <> username
             end).
Proof.
  intros Hre. split.
  - intros id. eexists. split.
    + unfold get_user_by_id, bind. rewrite Hre. reflexivity.
    + pose proof (first_value_spec (fun val => Z.eqb (User.id val) id)
                    (db (self st1))) as Hspec.
      destruct (first_value _ _) as [u|].
      * destruct Hspec as (d1 & k & d2 & Hd & Hu & Hd1).
        exists d1, k, d2. split; [easy|]. split; [now apply Z.eqb_eq|].
        intros k' v' Hin. apply Z.eqb_neq. eauto.
      * intros k v Hin. apply Z.eqb_neq. eauto.
  - intros username. eexists. split.
    + unfold get_user_by_username, bind. rewrite Hre. reflexivity.
    + pose proof (first_value_spec
                    (fun val => String.eqb (User.username val) username)
                    (db (self st1))) as Hspec.
      destruct (first_value _ _) as [u|].
      * destruct Hspec as (d1 & k & d2 & Hd & Hu & Hd1).
        exists d1, k, d2. split; [easy|]. split; [now apply String.eqb_eq|].
        intros k' v' Hin. apply String.eqb_neq. eauto.
      * intros k v Hin. apply String.eqb_neq. eauto.
Qed.

(** Property X11. After a successful [add_user] and after any
    [remove_user_by_cpf] that returns, the path of the object is unchanged
    and its file holds the serialization of its mapping, so that reading
    the file again changes nothing when the serializer gives that mapping
    back. *)
Theorem mutation_is_persisted :
  (forall user update st st',
      add_user user update st = Ret SUCCESS st' ->
      file_path (self st') = file_path (self st) /\ in_sync st'
      /\ (round_trips (db (self st')) ->
          try_read_from_file st' = Ret tt st'))
  /\ (forall c update st r st',
        remove_user_by_cpf c update st = Ret r st' ->
        file_path (self st') = file_path (self st) /\ in_sync st'
        /\ (round_trips (db (self st')) ->
            try_read_from_file st' = Ret tt st')).
Proof.
  split.
  - intros user update st st' Hadd.
    apply add_user_success in Hadd as (st1 & Hre & _ & ->).
    split; [apply (reload_keeps_path _ _ _ Hre)|]. split.
    + unfold in_sync. simpl. apply lookup_insert_eq.
    + intros Hrt. rewrite inserted_persisted. now apply try_read_persisted.
  - intros c update st r st'. rewrite remove_user_by_cpf_unfold.
    destruct (reload update st) as [[] st1|] eqn:Hre; [|easy].
    intros [= _ <-].
    split; [apply (reload_keeps_path _ _ _ Hre)|]. split.
    + unfold in_sync. simpl. apply lookup_insert_eq.
    + intros Hrt. now apply try_read_persisted.
Qed.

(** Property X12. When the file exists and decodes to a [dict], a call
    with reload does not depend on the mapping the object held: what was
    in memory only is dropped. *)
Theorem reload_forgets_memory (st : state) (objetos : string) (d d0 : dict) :
  disk st !! file_path (self st) = Some objetos ->
  decode objetos = DecodedDict d ->
  (forall user, add_user user true (holding d0 st) = add_user user true st)
  /\ (forall c,
        remove_user_by_cpf c true (holding d0 st)
        = remove_user_by_cpf c true st)
  /\ (forall c,
        get_user_by_cpf c true (holding d0 st) = get_user_by_cpf c true st)
  /\ get_user_list true (holding d0 st) = get_user_list true st.
Proof.
  intros Hfile Hdec.
  assert (Hre : reload true (holding d0 st) = reload true st).
  { simpl. unfold try_read_from_file. simpl. now rewrite Hfile, Hdec. }
  split; [|split; [|split]].
  - intros user. now rewrite !add_user_unfold, Hre.
  - intros c. now rewrite !remove_user_by_cpf_unfold, Hre.
  - intros c. unfold get_user_by_cpf, bind. now rewrite Hre.
  - unfold get_user_list, bind. now rewrite Hre.
Qed.

(** Property X13. When the file exists and the decoder rejects its
    content, every method of the store called with reload raises the
    decoder's error before it does anything else, and so does [signup],
    which always reloads: nothing is looked up, inserted, removed or
    written, and the mapping in memory and the files are unchanged. *)
Theorem malformed_file_blocks_store (st : state) :
  malformed st ->
  (forall user, add_user user true st = Raise JSONDecodeError st)
  /\ (forall c, remove_user_by_cpf c true st = Raise JSONDecodeError st)
  /\ (forall c, get_user_by_cpf c true st = Raise JSONDecodeError st)
  /\ (forall name,
        get_user_by_username name true st = Raise JSONDecodeError st)
  /\ (forall n, get_user_by_id n true st = Raise JSONDecodeError st)
  /\ get_user_list true st = Raise JSONDecodeError st
  /\ (forall user, signup user st = Raise JSONDecodeError st).
Proof.
  intros Hbad. apply reload_malformed in Hbad.
  split; [|split; [|split; [|split; [|split; [|split]]]]].
  - intros user. now rewrite add_user_unfold, Hbad.
  - intros c. now rewrite remove_user_by_cpf_unfold, Hbad.
  - intros c. unfold get_user_by_cpf, bind. now rewrite Hbad.
  - intros name. unfold get_user_by_username, bind. now rewrite Hbad.
  - intros n. unfold get_user_by_id, bind. now rewrite Hbad.
  - unfold get_user_list, bind. now rewrite Hbad.
  - intros user. unfold signup, bind. now rewrite add_user_unfold, Hbad.
Qed.
End StoreExtras.

(** *** The properties above on the sample states *)

Lemma store_stays_indexed_witness :
  keyed_by_cpf (db (self st_bob)) = true
  /\ unique_keys (db (self st_bob)) = true
  /\ (dict_get (User.cpf bob) (db (self st_bob)) = Some bob
      /\ User.cpf bob = User.cpf bob)
  /\ (@reload json true st_bob = Ret tt st_bob
      /\ @add_user json ivo true st_bob
         = Ret SUCCESS (@inserted json ivo st_bob)
      /\ keyed_by_cpf (db (self (@inserted json ivo st_bob))) = true
      /\ unique_keys (db (self (@inserted json ivo st_bob))) = true)
  /\ (@remove_user_by_cpf json (User.cpf bob) true st_bob
      = Ret (Some bob) (@persisted json (holding [] st_bob))
      /\ keyed_by_cpf (db (self (@persisted json (holding [] st_bob)))) = true
      /\ unique_keys (db (self (@persisted json (holding [] st_bob)))) = true).
Proof.
  assert (Hk : keyed_by_cpf (db (self st_bob)) = true) by reflexivity.
  assert (Hu : unique_keys (db (self st_bob)) = true) by reflexivity.
  assert (Hget : dict_get (User.cpf bob) (db (self st_bob)) = Some bob)
    by reflexivity.
  assert (Hre : @reload json true st_bob = Ret tt st_bob)
    by (vm_compute; reflexivity).
  assert (Hadd : @add_user json ivo true st_bob
                 = Ret SUCCESS (@inserted json ivo st_bob))
    by (vm_compute; reflexivity).
  assert (Hrem : @remove_user_by_cpf json (User.cpf bob) true st_bob
                 = Ret (Some bob) (@persisted json (holding [] st_bob)))
    by (vm_compute; reflexivity).
  destruct (@store_stays_indexed json st_bob Hk Hu) as (Hlookup & Hins & Hdel).
  refine (conj Hk (conj Hu (conj (conj Hget _) (conj _ _)))).
  - exact (Hlookup _ _ Hget).
  - exact (conj Hre (conj Hadd (Hins _ _ _ _ _ Hre Hadd))).
  - exact (conj Hrem (Hdel _ _ _ _ _ Hre Hrem)).
Defined.

Lemma remove_present_witness :
  @reload json true st_two = Ret tt st_two
  /\ unique_keys (db (self st_two)) = true
  /\ dict_get (User.cpf ivo) (db (self st_two)) = Some ivo
  /\ exists d1 d2,
       db (self st_two) = (d1 ++ (User.cpf ivo, ivo) :: d2)%list
       /\ @remove_user_by_cpf json (User.cpf ivo) true st_two
          = Ret (Some ivo) (@persisted json (holding (d1 ++ d2) st_two))
       /\ dict_get (User.cpf ivo) (d1 ++ d2) = None
       /\ forall c', c' <> User.cpf ivo ->
            dict_get c' (d1 ++ d2) = dict_get c' (db (self st_two)).
Proof.
  assert (Hre : @reload json true st_two = Ret tt st_two)
    by (vm_compute; reflexivity).
  assert (Hu : unique_keys (db (self st_two)) = true) by reflexivity.
  assert (Hget : dict_get (User.cpf ivo) (db (self st_two)) = Some ivo)
    by reflexivity.
  exact (conj Hre (conj Hu (conj Hget
           (@remove_present json (User.cpf ivo) ivo true st_two st_two
              Hre Hu Hget)))).
Defined.

Lemma add_then_remove_witness :
  @reload json true st_bob = Ret tt st_bob
  /\ @add_user json ivo true st_bob = Ret SUCCESS (@inserted json ivo st_bob)
  /\ @round_trips json (db (self (@inserted json ivo st_bob)))
  /\ @remove_user_by_cpf json (User.cpf ivo) true (@inserted json ivo st_bob)
     = Ret (Some ivo)
         (@persisted json
            (holding (db (self st_bob)) (@inserted json ivo st_bob))).
Proof.
  assert (Hre : @reload json true st_bob = Ret tt st_bob)
    by (vm_compute; reflexivity).
  assert (Hadd : @add_user json ivo true st_bob
                 = Ret SUCCESS (@inserted json ivo st_bob))
    by (vm_compute; reflexivity).
  assert (Hrt : @round_trips json (db (self (@inserted json ivo st_bob))))
    by (vm_compute; reflexivity).
  exact (conj Hre (conj Hadd (conj Hrt
           (@add_then_remove json ivo true true st_bob st_bob _
              Hre Hadd Hrt)))).
Defined.

Lemma added_record_is_found_witness :
  @reload json true st_bob = Ret tt st_bob
  /\ @add_user json ivo true st_bob = Ret SUCCESS (@inserted json ivo st_bob)
  /\ @round_trips json (db (self (@inserted json ivo st_bob)))
  /\ (forall u2,
        @get_user_by_cpf json (User.cpf ivo) u2 (@inserted json ivo st_bob)
        = Ret (Some ivo) (@inserted json ivo st_bob))
  /\ (forall u2,
        @get_user_list json u2 (@inserted json ivo st_bob)
        = Ret (dict_values (db (self st_bob)) ++ [ivo])%list
            (@inserted json ivo st_bob))
  /\ (forall d,
        @get_user_by_cpf json (User.cpf ivo) true
          (holding d (@inserted json ivo st_bob))
        = Ret (Some ivo) (@inserted json ivo st_bob)).
Proof.
  assert (Hre : @reload json true st_bob = Ret tt st_bob)
    by (vm_compute; reflexivity).
  assert (Hadd : @add_user json ivo true st_bob
                 = Ret SUCCESS (@inserted json ivo st_bob))
    by (vm_compute; reflexivity).
  assert (Hrt : @round_trips json (db (self (@inserted json ivo st_bob))))
    by (vm_compute; reflexivity).
  exact (conj Hre (conj Hadd (conj Hrt
           (@added_record_is_found json ivo true st_bob st_bob _
              Hre Hadd Hrt)))).
Defined.

Lemma username_not_unique_witness :
  @reload json true st_bob = Ret tt st_bob
  /\ In (User.cpf bob, bob) (db (self st_bob))
  /\ User.username bob = User.username carla
  /\ dict_get (User.cpf carla) (db (self st_bob)) = None
  /\ first_value
       (fun val => String.eqb (User.username val) (User.nome carla))
       (db (self st_bob)) = None
  /\ @add_user json carla true st_bob
     = Ret SUCCESS (@inserted json carla st_bob)
  /\ In (User.cpf bob, bob) (db (self (@inserted json carla st_bob)))
  /\ In (User.cpf carla, carla) (db (self (@inserted json carla st_bob)))
  /\ exists first,
       @get_user_by_username json (User.username carla) false st_bob
       = Ret (Some first) st_bob
       /\ @get_user_by_username json (User.username carla) false
            (@inserted json carla st_bob)
          = Ret (Some first) (@inserted json carla st_bob).
Proof.
  assert (Hre : @reload json true st_bob = Ret tt st_bob)
    by (vm_compute; reflexivity).
  assert (Hin : In (User.cpf bob, bob) (db (self st_bob)))
    by (left; reflexivity).
  assert (Hname : User.username bob = User.username carla) by reflexivity.
  assert (Hfree : dict_get (User.cpf carla) (db (self st_bob)) = None)
    by reflexivity.
  assert (Hnome : first_value
                    (fun val => String.eqb (User.username val)
                                  (User.nome carla))
                    (db (self st_bob)) = None) by reflexivity.
  exact (conj Hre (conj Hin (conj Hname (conj Hfree (conj Hnome
           (@username_not_unique json carla bob (User.cpf bob) true
              st_bob st_bob Hre Hin Hname Hfree Hnome)))))).
Defined.

Lemma lookup_first_match_witness :
  @reload json true st_two = Ret tt st_two
  /\ (exists r,
        @get_user_by_id json 45 true st_two = Ret r st_two
        /\ match r with
           | Some u =>
               exists d1 k d2,
                 db (self st_two) = (d1 ++ (k, u) :: d2)%list
                 /\ User.id u = 45%Z
                 /\ forall k' v', In (k', v') d1 -> User.id v' <> 45%Z
           | None =>
               forall k v, In (k, v) (db (self st_two)) -> User.id v <> 45%Z
           end)
  /\ (exists r,
        @get_user_by_username json "nobody" true st_two = Ret r st_two
        /\ match r with
           | Some u =>
               exists d1 k d2,
                 db (self st_two) = (d1 ++ (k, u) :: d2)%list
                 /\ User.username u = "nobody"
                 /\ forall k' v',
                      In (k', v') d1 -> User.username v' <> "nobody"
           | None =>
               forall k v,
                 In (k, v) (db (self st_two)) -> User.username v <> "nobody"
           end).
Proof.
  assert (Hre : @reload json true st_two = Ret tt st_two)
    by (vm_compute; reflexivity).
  destruct (@lookup_first_match json true st_two st_two Hre) as [Hid Hname].
  exact (conj Hre (conj (Hid 45%Z) (Hname "nobody"))).
Defined.

Lemma mutation_is_persisted_witness :
  (@add_user json ivo true st_bob = Ret SUCCESS (@inserted json ivo st_bob)
   /\ file_path (self (@inserted json ivo st_bob)) = file_path (self st_bob)
   /\ @in_sync json (@inserted json ivo st_bob)
   /\ (@round_trips json (db (self (@inserted json ivo st_bob))) ->
       @try_read_from_file json (@inserted json ivo st_bob)
       = Ret tt (@inserted json ivo st_bob)))
  /\ (@remove_user_by_cpf json (User.cpf bob) false st_stale
      = Ret None (@persisted json st_stale)
      /\ file_path (self (@persisted json st_stale))
         = file_path (self st_stale)
      /\ @in_sync json (@persisted json st_stale)
      /\ (@round_trips json (db (self (@persisted json st_stale))) ->
          @try_read_from_file json (@persisted json st_stale)
          = Ret tt (@persisted json st_stale))).
Proof.
  assert (Hadd : @add_user json ivo true st_bob
                 = Ret SUCCESS (@inserted json ivo st_bob))
    by (vm_compute; reflexivity).
  assert (Hrem : @remove_user_by_cpf json (User.cpf bob) false st_stale
                 = Ret None (@persisted json st_stale))
    by (vm_compute; reflexivity).
  destruct (@mutation_is_persisted json) as [Hins Hdel].
  exact (conj (conj Hadd (Hins _ _ _ _ Hadd))
           (conj Hrem (Hdel _ _ _ _ _ Hrem))).
Defined.

Lemma reload_forgets_memory_witness :
  disk st_stale !! file_path (self st_stale)
  = Some (@encode json [(User.cpf ana, ana)])
  /\ @decode json (@encode json [(User.cpf ana, ana)])
     = DecodedDict [(User.cpf ana, ana)]
  /\ (forall user,
        @add_user json user true (holding [(User.cpf bob, bob)] st_stale)
        = @add_user json user true st_stale)
  /\ (forall c,
        @remove_user_by_cpf json c true
          (holding [(User.cpf bob, bob)] st_stale)
        = @remove_user_by_cpf json c true st_stale)
  /\ (forall c,
        @get_user_by_cpf json c true (holding [(User.cpf bob, bob)] st_stale)
        = @get_user_by_cpf json c true st_stale)
  /\ @get_user_list json true (holding [(User.cpf bob, bob)] st_stale)
     = @get_user_list json true st_stale.
Proof.
  assert (Hfile : disk st_stale !! file_path (self st_stale)
                  = Some (@encode json [(User.cpf ana, ana)]))
    by (vm_compute; reflexivity).
  assert (Hdec : @decode json (@encode json [(User.cpf ana, ana)])
                 = DecodedDict [(User.cpf ana, ana)])
    by (vm_compute; reflexivity).
  exact (conj Hfile (conj Hdec
           (@reload_forgets_memory json st_stale _ _
              [(User.cpf bob, bob)] Hfile Hdec))).
Defined.

Lemma malformed_file_blocks_store_witness :
  @malformed json st_emptied
  /\ @add_user json ivo true st_emptied = Raise JSONDecodeError st_emptied
  /\ @remove_user_by_cpf json (User.cpf ana) true st_emptied
     = Raise JSONDecodeError st_emptied
  /\ @get_user_by_cpf json (User.cpf ana) true st_emptied
     = Raise JSONDecodeError st_emptied
  /\ @get_user_by_username json "ana123" true st_emptied
     = Raise JSONDecodeError st_emptied
  /\ @get_user_by_id json 42 true st_emptied
     = Raise JSONDecodeError st_emptied
  /\ @get_user_list json true st_emptied = Raise JSONDecodeError st_emptied
  /\ @signup json ivo st_emptied = Raise JSONDecodeError st_emptied.
Proof.
  assert (Hbad : @malformed json st_emptied)
    by (exists ""; split; reflexivity).
  destruct (@malformed_file_blocks_store json st_emptied Hbad)
    as (Hadd & Hrem & Hcpf & Hname & Hid & Hlist & Hsign).
  refine (conj Hbad (conj _ (conj _ (conj _ (conj _ (conj _ (conj _ _))))))).
  - exact (Hadd ivo).
  - exact (Hrem (User.cpf ana)).
  - exact (Hcpf (User.cpf ana)).
  - exact (Hname "ana123").
  - exact (Hid 42%Z).
  - exact Hlist.
  - exact (Hsign ivo).
Defined.
